(** * wormhole-connect: wallet registry, chain dispatcher, wrapped-token
    resolver and receipt normalizer

    A shallow embedding of the wallet module ([utils/wallet]) and of the
    SDK module that holds the wrapped-token resolver and [parseReceipt].
    The module-level singletons of the source ([walletConnection],
    [localStorage], [config.wrappedTokenAddressCache]) are the fields of
    one [World]; [async] functions that may throw are computations in a
    state-and-exception monad over that world.  Everything the source
    reaches outside its own modules (wallet handles, per-context adapter
    modules, the bridge RPC client, redux) is an oracle of the record
    [Outside]; every such request is written to the world's call log. *)

From Stdlib Require Import ZArith String Ascii List Lia.
From Stdlib Require Import DecimalString.
From stdpp Require Import base option list strings gmap.

Local Open Scope string_scope.
Local Open Scope Z_scope.

(** ** Exceptions and completions *)

(** What a [throw] carries: [new Error(msg)], the wallet aggregator's
    [NotSupported] class (tested with [instanceof]), and the [TypeError] of
    reading a property of [undefined]. *)
Inductive Exn :=
| Error (msg : string)
| NotSupported
| TypeError.

Inductive Completion (A : Type) :=
| Return (a : A)
| Throw (e : Exn).
Arguments Return {A} a.
Arguments Throw {A} e.

(** ** Chains, contexts, wallets *)

(** [Context] of sdklegacy; the members the sources name, and [OTHER] for
    the remaining ones. *)
Inductive Context := ETH | SOLANA | SUI | APTOS | SEI | COSMOS | OTHER.

Definition Context_eqb (a b : Context) : bool :=
  match a, b with
  | ETH, ETH | SOLANA, SOLANA | SUI, SUI | APTOS, APTOS
  | SEI, SEI | COSMOS, COSMOS | OTHER, OTHER => true
  | _, _ => false
  end.

(** Chain names of the SDK ('Solana', 'Evmos', ...). *)
Definition Chain := string.

(** [chainId: number | string]; [===] never identifies a number with a
    string. *)
Inductive ChainId :=
| NumId (n : Z)
| StrId (s : string).

Definition ChainId_eqb (a b : ChainId) : bool :=
  match a, b with
  | NumId n, NumId m => Z.eqb n m
  | StrId s, StrId t => String.eqb s t
  | _, _ => false
  end.

Record ChainConfig := {
  cc_key : Chain;
  cc_context : Context;
  cc_chainId : ChainId;
}.

Inductive TransferWallet := SENDING | RECEIVING.

Inductive WalletState := Installed | NotDetected | Loadable | Unsupported.

(** A wallet handle: an object reference ([wid]) with the descriptors the
    source reads through [getName], [getIcon] and [getWalletState].  Its
    address and network are answered by the outside world. *)
Record Wallet := {
  wid : nat;
  getName : string;
  getIcon : string;
  getWalletState : WalletState;
}.

Record WalletData := {
  wd_name : string;
  wd_type : Context;
  wd_icon : string;
  wd_isReady : bool;
  wd_wallet : Wallet;
}.

(** Opaque to this layer: an unsigned transaction request and the options
    bag, each known by a label. *)
Definition UnsignedTransaction := string.
Definition SendOptions := string.

(** ** Tokens *)

Record TokenId := {
  tid_chain : Chain;
  tid_address : string;
}.

(** [TokenAddress<C>]: the literal ['native'] or an address object. *)
Inductive TokenAddress :=
| native
| NativeAddress (a : string).

Record ForeignAsset := {
  fa_address : string;
  fa_decimals : Z;
}.

Record TokenConfig := {
  tk_key : string;
  tk_symbol : string;
  tk_nativeChain : Chain;
  tk_tokenId : option TokenId;
  tk_foreignAssets : gmap Chain ForeignAsset;
}.

(** ** The call log *)

Inductive WalletSource :=
| evm_wallets | solana_wallets | sui_wallets | aptos_wallets
| sei_wallets | cosmosEvm_wallets | cosmos_wallets.

Record WalletPayload := {
  wp_address : option string;
  wp_type : Context;
  wp_icon : string;
  wp_name : string;
}.

Inductive Action :=
| connectSourceWallet (p : WalletPayload)
| connectReceivingWallet (p : WalletPayload).

(** One constructor per request the source makes of a collaborator.  The
    dynamic [import] of an adapter module and the call into it are one
    request. *)
Inductive Call :=
| c_wallet_connect (w : Wallet) (chainId : ChainId)
| c_wallet_on (w : Wallet) (event : string)
| c_triggerEvent (side : TransferWallet) (chain : Chain) (wallet : string)
| c_dispatch (a : Action)
| c_fetch_wallets (src : WalletSource)
| c_evm_switchChain (w : Wallet) (chainId : ChainId)
| c_cosmos_switchChain (w : Wallet) (chainId : ChainId)
| c_evm_signAndSend (req : UnsignedTransaction) (w : Wallet) (chain : Chain)
    (opts : SendOptions)
| c_solana_signAndSend (req : UnsignedTransaction) (w : Wallet)
    (opts : SendOptions)
| c_sui_signAndSend (req : UnsignedTransaction) (w : Wallet)
| c_aptos_signAndSend (req : UnsignedTransaction) (w : Wallet)
| c_getWormholeContextV2
| c_getTokenBridge (chain : Chain)
| c_getWrappedAsset (chain : Chain) (t : TokenId)
| c_getTokenNativeAddress (chain : Chain) (a : string)
| c_splToken_getAccount (ata : string).

Definition is_adapter_call (c : Call) : bool :=
  match c with
  | c_evm_switchChain _ _ | c_cosmos_switchChain _ _
  | c_evm_signAndSend _ _ _ _ | c_solana_signAndSend _ _ _
  | c_sui_signAndSend _ _ | c_aptos_signAndSend _ _ => true
  | _ => false
  end.

Definition is_live_lookup (c : Call) : bool :=
  match c with
  | c_getWrappedAsset _ _ => true
  | _ => false
  end.

(** ** The world *)

Record WalletConnection := {
  sending : option Wallet;
  receiving : option Wallet;
}.

(** [walletConnection[type]]. *)
Definition binding (wc : WalletConnection) (type : TransferWallet)
  : option Wallet :=
  match type with
  | SENDING => sending wc
  | RECEIVING => receiving wc
  end.

(** [calls] holds the requests made so far, most recent first. *)
Record World := {
  walletConnection : WalletConnection;
  localStorage : gmap string string;
  wrappedTokenAddressCache : gmap (string * Chain) TokenAddress;
  calls : list Call;
}.

Definition set_walletConnection (wc : WalletConnection) (s : World) : World :=
  {| walletConnection := wc;
     localStorage := localStorage s;
     wrappedTokenAddressCache := wrappedTokenAddressCache s;
     calls := calls s |}.

Definition set_localStorage (ls : gmap string string) (s : World) : World :=
  {| walletConnection := walletConnection s;
     localStorage := ls;
     wrappedTokenAddressCache := wrappedTokenAddressCache s;
     calls := calls s |}.

Definition set_cache (c : gmap (string * Chain) TokenAddress) (s : World)
  : World :=
  {| walletConnection := walletConnection s;
     localStorage := localStorage s;
     wrappedTokenAddressCache := c;
     calls := calls s |}.

Definition log_call (c : Call) (s : World) : World :=
  {| walletConnection := walletConnection s;
     localStorage := localStorage s;
     wrappedTokenAddressCache := wrappedTokenAddressCache s;
     calls := c :: calls s |}.

(** ** The monad of the source's effectful functions *)

Definition M (A : Type) : Type := World -> Completion A * World.

Definition ret {A} (a : A) : M A := fun s => (Return a, s).

Definition throw {A} (e : Exn) : M A := fun s => (Throw e, s).

Definition bind {A B} (m : M A) (k : A -> M B) : M B :=
  fun s =>
    match m s with
    | (Return a, s') => k a s'
    | (Throw e, s') => (Throw e, s')
    end.

(** [try { m } catch (e) { h e }]: state changes made before the throw
    stay. *)
Definition try_catch {A} (m : M A) (h : Exn -> M A) : M A :=
  fun s =>
    match m s with
    | (Return a, s') => (Return a, s')
    | (Throw e, s') => h e s'
    end.

Definition gets {A} (f : World -> A) : M A := fun s => (Return (f s), s).

Definition modify (f : World -> World) : M unit :=
  fun s => (Return tt, f s).

(** A request to a collaborator: the answer is the oracle's, given the
    requests made before; the request is logged. *)
Definition request {A} (c : Call) (oracle : list Call -> Completion A) : M A :=
  fun s => (oracle (calls s), log_call c s).

(** A synchronous getter of a collaborator (not logged). *)
Definition observe {A} (oracle : list Call -> A) : M A :=
  fun s => (Return (oracle (calls s)), s).

Notation "'do' x <- m ;; k" := (bind m (fun x => k))
  (at level 10, x name, m at level 99, k at level 200).
Notation "'run' m ;; k" := (bind m (fun _ => k))
  (at level 10, m at level 99, k at level 200).

(** ** Collaborators *)

(** The static tables and pure helpers of [config] and [utils] that the two
    modules import. *)
Record Config := {
  chains : Chain -> option ChainConfig;
  getChainByChainId : ChainId -> option ChainConfig;
  contextName : Context -> string;
  tokensArr : list TokenConfig;
  toTokenIdV2 : TokenConfig -> TokenId;
  findTokenConfigV1 : TokenId -> list TokenConfig -> option TokenConfig;
  getWrappedTokenId : TokenConfig -> TokenId;
  getTokenDecimals : Chain -> TokenId -> Z;
  rpcs_Solana : option string;
  amount_display : string -> Z -> string;
  amount_fmt : Z -> Z -> string;
  toNative : Chain -> string -> string;
}.

Record TxResponse := { tx_id : string }.

(** The effectful collaborators.  Each answer may depend on the requests
    made so far. *)
Record Outside := {
  getNetworkInfo_chainId : list Call -> Wallet -> ChainId;
  getAddress : list Call -> Wallet -> option string;
  wallet_connect : list Call -> Wallet -> ChainId -> Completion unit;
  fetch_wallets : list Call -> WalletSource -> Completion (list Wallet);
  evm_switchChain : list Call -> Wallet -> ChainId -> Completion unit;
  cosmos_switchChain : list Call -> Wallet -> ChainId -> Completion unit;
  evm_signAndSendTransaction :
    list Call -> UnsignedTransaction -> Wallet -> Chain -> SendOptions ->
    Completion string;
  solana_signAndSendTransaction :
    list Call -> UnsignedTransaction -> Wallet -> SendOptions ->
    Completion string;
  sui_signAndSendTransaction :
    list Call -> UnsignedTransaction -> Wallet -> Completion TxResponse;
  aptos_signAndSendTransaction :
    list Call -> UnsignedTransaction -> Wallet -> Completion TxResponse;
  getWormholeContextV2 : list Call -> Completion unit;
  getTokenBridge : list Call -> Chain -> Completion unit;
  getWrappedAsset :
    list Call -> Chain -> TokenId -> Completion (option TokenAddress);
  getTokenNativeAddress : list Call -> Chain -> string -> Completion string;
  splToken_getAccount_owner : list Call -> string -> Completion string;
}.

(** ** String helpers *)

Definition lower_ascii (c : ascii) : ascii :=
  let n := nat_of_ascii c in
  if (Nat.leb 65 n && Nat.leb n 90)%bool then ascii_of_nat (n + 32) else c.

Fixpoint toLowerCase (s : string) : string :=
  match s with
  | EmptyString => EmptyString
  | String c r => String (lower_ascii c) (toLowerCase r)
  end.

Definition Z_toString (z : Z) : string := NilZero.string_of_int (Z.to_int z).

(** ** The wallet module *)

Section Wallets.
Variable config : Config.
Variable out : Outside.

Definition storage_key (context : Context) : string :=
  "wormhole-connect:wallet:" +:+ contextName config context.

Definition getWalletConnection (type : TransferWallet) : M (option Wallet) :=
  gets (fun s => binding (walletConnection s) type).

Definition setWalletConnection (type : TransferWallet) (wallet : Wallet)
  : M unit :=
  modify (fun s =>
    let wc := walletConnection s in
    set_walletConnection
      match type with
      | SENDING => {| sending := Some wallet; receiving := receiving wc |}
      | RECEIVING => {| sending := sending wc; receiving := Some wallet |}
      end s).

Definition swap (wc : WalletConnection) : WalletConnection :=
  let temp := sending wc in
  {| sending := receiving wc; receiving := temp |}.

Definition swapWalletConnections : M unit :=
  modify (fun s => set_walletConnection (swap (walletConnection s)) s).

Definition connectWallet (type : TransferWallet) (chain : Chain)
    (walletInfo : WalletData) : M unit :=
  let wallet := wd_wallet walletInfo in
  let name := wd_name walletInfo in
  run setWalletConnection type wallet ;;
  match chains config chain with
  | None => throw (Error ("Unable to find wallets for chain " +:+ chain))
  | Some chainConfig =>
    let chainId := cc_chainId chainConfig in
    let context := cc_context chainConfig in
    run request (c_wallet_connect wallet chainId)
          (fun h => wallet_connect out h wallet chainId) ;;
    run request (c_triggerEvent type chain (toLowerCase name))
          (fun _ => Return tt) ;;
    do address <- observe (fun h => getAddress out h wallet) ;;
    let payload := {| wp_address := address;
                      wp_type := wd_type walletInfo;
                      wp_icon := getIcon wallet;
                      wp_name := getName wallet |} in
    run request
          (c_dispatch match type with
                      | SENDING => connectSourceWallet payload
                      | RECEIVING => connectReceivingWallet payload
                      end)
          (fun _ => Return tt) ;;
    run request (c_wallet_on wallet "disconnect") (fun _ => Return tt) ;;
    run request (c_wallet_on wallet "accountsChanged") (fun _ => Return tt) ;;
    modify (fun s =>
      set_localStorage (<[storage_key context := name]> (localStorage s)) s)
  end.

Definition getReady (wallet : Wallet) : bool :=
  match getWalletState wallet with
  | Unsupported | NotDetected => false
  | _ => true
  end.

(** [self.findIndex (o => o.getName() === name)]. *)
Fixpoint findIndex_name (name : string) (self : list Wallet) : option nat :=
  match self with
  | [] => None
  | o :: rest =>
    if String.eqb (getName o) name then Some O
    else option_map S (findIndex_name name rest)
  end.

Fixpoint keep_first_by_name (self : list Wallet) (index : nat)
    (l : list Wallet) : list Wallet :=
  match l with
  | [] => []
  | wallet :: rest =>
    let tail := keep_first_by_name self (S index) rest in
    match findIndex_name (getName wallet) self with
    | Some i => if Nat.eqb index i then wallet :: tail else tail
    | None => tail
    end
  end.

Definition includes (skip : list string) (name : string) : bool :=
  existsb (String.eqb name) skip.

Definition mapWallets (wallets : list Wallet) (type : Context)
    (skip : list string) : list WalletData :=
  map (fun wallet =>
         {| wd_wallet := wallet;
            wd_type := type;
            wd_name := getName wallet;
            wd_icon := getIcon wallet;
            wd_isReady := getReady wallet |})
      (filter (fun wallet => negb (includes skip (getName wallet)))
              (keep_first_by_name wallets O wallets)).

Definition load_wallets (src : WalletSource) : M (list Wallet) :=
  request (c_fetch_wallets src) (fun h => fetch_wallets out h src).

Definition getWalletOptions (cfg : option ChainConfig)
  : M (list WalletData) :=
  match cfg with
  | None => ret []
  | Some cfg =>
    match cc_context cfg with
    | ETH =>
      do wallets <- load_wallets evm_wallets ;;
      ret (mapWallets wallets ETH [])
    | SOLANA =>
      do wallets <- load_wallets solana_wallets ;;
      ret (mapWallets wallets SOLANA [])
    | SUI =>
      do wallets <- load_wallets sui_wallets ;;
      ret (mapWallets wallets SUI [])
    | APTOS =>
      do wallets <- load_wallets aptos_wallets ;;
      ret (mapWallets wallets APTOS [])
    | SEI =>
      do wallets <- load_wallets sei_wallets ;;
      ret (mapWallets wallets SEI [])
    | COSMOS =>
      if String.eqb (cc_key cfg) "Evmos" then
        do wallets <- load_wallets cosmosEvm_wallets ;;
        ret (mapWallets wallets COSMOS ["OKX Wallet"])
      else if String.eqb (cc_key cfg) "Injective" then
        do wallets <- load_wallets cosmosEvm_wallets ;;
        ret (mapWallets wallets COSMOS ["OKX Wallet"])
      else
        do wallets <- load_wallets cosmos_wallets ;;
        ret (mapWallets wallets COSMOS [])
    | OTHER => ret []
    end
  end.

(** [lastUsedWallet && lastUsedWallet !== 'WalletConnect']. *)
Definition should_restore (lastUsedWallet : option string) : bool :=
  match lastUsedWallet with
  | None => false
  | Some name => negb (String.eqb name "") && negb (String.eqb name "WalletConnect")
  end.

Definition connectLastUsedWallet (type : TransferWallet) (chain : Chain)
  : M unit :=
  match chains config chain with
  | None => throw TypeError
  | Some chainConfig =>
    do lastUsedWallet <-
      gets (fun s => localStorage s !! storage_key (cc_context chainConfig)) ;;
    if should_restore lastUsedWallet then
      do options <- getWalletOptions (Some chainConfig) ;;
      match find (fun w => String.eqb (wd_name w)
                               (default "" lastUsedWallet)) options with
      | Some wallet => connectWallet type chain wallet
      | None => ret tt
      end
    else ret tt
  end.

Definition switchChain (chainId : ChainId) (type : TransferWallet)
  : M (option string) :=
  do w <- getWalletConnection type ;;
  match w with
  | None => throw (Error "must connect wallet")
  | Some w =>
    let cfg := getChainByChainId config chainId in
    do currentChain <- observe (fun h => getNetworkInfo_chainId out h w) ;;
    if ChainId_eqb currentChain chainId then ret None
    else
      match cfg with
      | None => throw TypeError
      | Some cfg =>
        do returned <-
          (if Context_eqb (cc_context cfg) ETH then
             try_catch
               (run request (c_evm_switchChain w chainId)
                      (fun h => evm_switchChain out h w chainId) ;;
                ret false)
               (fun e => match e with
                         | NotSupported => ret true
                         | _ => throw e
                         end)
           else ret false) ;;
        if returned : bool then ret None
        else
          run (if Context_eqb (cc_context cfg) COSMOS then
                 request (c_cosmos_switchChain w chainId)
                   (fun h => cosmos_switchChain out h w chainId)
               else ret tt) ;;
          observe (fun h => getAddress out h w)
      end
  end.

Definition signAndSendTransaction (chain : Chain)
    (req : UnsignedTransaction) (walletType : TransferWallet)
    (options : SendOptions) : M string :=
  let chainConfig := chains config chain in
  do wallet <- getWalletConnection walletType ;;
  match wallet with
  | None => throw (Error "wallet is undefined")
  | Some wallet =>
    match chainConfig with
    | None => throw TypeError
    | Some chainConfig =>
      match cc_context chainConfig with
      | ETH =>
        request (c_evm_signAndSend req wallet chain options)
          (fun h => evm_signAndSendTransaction out h req wallet chain options)
      | SOLANA =>
        request (c_solana_signAndSend req wallet options)
          (fun h => solana_signAndSendTransaction out h req wallet options)
      | SUI =>
        do tx <- request (c_sui_signAndSend req wallet)
                   (fun h => sui_signAndSendTransaction out h req wallet) ;;
        ret (tx_id tx)
      | APTOS =>
        do tx <- request (c_aptos_signAndSend req wallet)
                   (fun h => aptos_signAndSendTransaction out h req wallet) ;;
        ret (tx_id tx)
      | _ => throw (Error "unimplemented")
      end
    end
  end.

End Wallets.

(** ** The SDK module: resolver and receipt parsers *)

Record RelayerFee := {
  fee : string;
  fee_tokenKey : string;
}.

(** [TransferInfo].  The parsers build it as a [Partial] and cast, so the
    members a parser can leave unset are options here as well.  The two
    members the source passes through [Number(...)] hold the decimal text
    handed to it. *)
Record TransferInfo := {
  sendTx : string;
  sender : option string;
  recipient : option string;
  amount : string;
  toChain : Chain;
  fromChain : Chain;
  tokenAddress : string;
  tokenKey : string;
  tokenDecimals : Z;
  receivedTokenKey : string;
  receiveAmount : option string;
  relayerFee : option RelayerFee;
  receiveNativeAmount : option string;
  eta : option Z;
}.

Record TransactionId := {
  tx_chain : Chain;
  txid : string;
}.

(** [TokenBridge.TransferVAA] payload. *)
Record TransferToken := {
  tt_chain : Chain;
  tt_address : string;
  tt_amount : Z;
}.

Record TransferTo := {
  to_chain : Chain;
  to_address : string;
}.

Record RelayPayload := {
  toNativeTokenAmount : option Z;
  targetRelayerFee : option Z;
}.

Record TransferPayload := {
  p_token : option TransferToken;
  p_to : option TransferTo;
  p_payload : option RelayPayload;
}.

(** [CircleTransfer.CircleAttestationReceipt]: [attestation.message.payload]. *)
Record CirclePayload := {
  burnToken : string;
  circle_amount : Z;
  messageSender : string;
  mintRecipient : string;
}.

(** NTT attestations. *)
Record TrimmedAmount := {
  ta_amount : Z;
  ta_decimals : Z;
}.

Record NttManagerPayload := {
  ntt_sender : string;
  recipientAddress : string;
  trimmedAmount : TrimmedAmount;
}.

(** Where the manager payload sits: at [attestation.payload] or one level
    down, at [attestation.payload.payload]. *)
Inductive NttShape :=
| top_level (m : NttManagerPayload)
| nested (m : NttManagerPayload).

Record NttParams := {
  sourceContracts_token : string;
  destinationContracts_token : string;
}.

Inductive Attestation :=
| TransferVAA (payload : TransferPayload)
| CircleAttestation (payload : option CirclePayload)
| NttAttestation (payloadName : string) (shape : NttShape).

(** [ReceiptWithAttestation<any>]: [originTxs] may be missing from the
    object (['originTxs' in receipt]); [params] is the NTT extension. *)
Record Receipt := {
  r_from : Chain;
  r_to : Chain;
  r_originTxs : option (list TransactionId);
  r_attestation : Attestation;
  r_params : option NttParams;
}.

Section Sdkv2.
Variable config : Config.
Variable out : Outside.

(** Modelled from the spec: [config.wrappedTokenAddressCache], a class
    that is not among the sources; a map keyed by (token key, chain)
    holding the resolved address. *)
Definition wrappedTokenAddressCache_get (key : string) (chain : Chain)
  : M (option TokenAddress) :=
  gets (fun s => wrappedTokenAddressCache s !! (key, chain)).

Definition wrappedTokenAddressCache_set (key : string) (chain : Chain)
    (a : TokenAddress) : M unit :=
  modify (fun s =>
    set_cache (<[(key, chain) := a]> (wrappedTokenAddressCache s)) s).

Definition getTokenBridgeWrappedTokenAddress (token : TokenConfig)
    (chain : Chain) : M (option TokenAddress) :=
  do cached <- wrappedTokenAddressCache_get (tk_key token) chain ;;
  match cached with
  | Some a => ret (Some a)
  | None =>
    run request c_getWormholeContextV2 (getWormholeContextV2 out) ;;
    run request (c_getTokenBridge chain)
          (fun h => getTokenBridge out h chain) ;;
    let tokenId := toTokenIdV2 config token in
    try_catch
      (do wrapped <- request (c_getWrappedAsset chain tokenId)
                       (fun h => getWrappedAsset out h chain tokenId) ;;
       run match wrapped with
           | Some a => wrappedTokenAddressCache_set (tk_key token) chain a
           | None => ret tt
           end ;;
       ret wrapped)
      (fun _ => ret None)
  end.

Definition getTokenBridgeWrappedTokenAddressSync (token : TokenConfig)
    (chain : Chain) : M (option TokenAddress) :=
  wrappedTokenAddressCache_get (tk_key token) chain.

(** The guard every parser starts with:
    ['originTxs' in receipt && receipt.originTxs.length > 0]. *)
Definition origin_txid (receipt : Receipt) : M string :=
  match r_originTxs receipt with
  | Some originTxs =>
    if (0 <? length originTxs)%nat then
      match originTxs !! (length originTxs - 1)%nat with
      | Some tx => ret (txid tx)
      | None => throw TypeError
      end
    else throw (Error "Can't find txid in receipt")
  | None => throw (Error "Can't find txid in receipt")
  end.

(** The recipient block of the token-bridge and CCTP parsers: on Solana
    the address on the wire is the associated token account, whose owner
    is looked up; when that lookup fails the account itself is kept. *)
Definition recipient_of (to : Chain) (address : string) : M string :=
  if String.eqb to "Solana" then
    match rpcs_Solana config with
    | None => throw (Error "Missing Solana RPC")
    | Some _ =>
      let ata := toNative config to address in
      try_catch
        (request (c_splToken_getAccount ata)
           (fun h => splToken_getAccount_owner out h ata))
        (fun _ => ret ata)
    end
  else ret (toNative config to address).

(** A bigint member used as a condition: absent and [0n] are falsy. *)
Definition truthy (z : option Z) : option Z :=
  match z with
  | Some v => if v =? 0 then None else Some v
  | None => None
  end.

Definition parseTokenBridgeReceipt (receipt : Receipt) : M TransferInfo :=
  do sendTx <- origin_txid receipt ;;
  match r_attestation receipt with
  | TransferVAA payload =>
    match p_token payload with
    | None => throw (Error "Attestation is missing token.")
    | Some token =>
      run request c_getWormholeContextV2 (getWormholeContextV2 out) ;;
      run request (c_getTokenBridge (tt_chain token))
            (fun h => getTokenBridge out h (tt_chain token)) ;;
      do tokenAddress <-
        request (c_getTokenNativeAddress (tt_chain token) (tt_address token))
          (fun h => getTokenNativeAddress out h (tt_chain token)
                      (tt_address token)) ;;
      let tokenIdV2 :=
        {| tid_chain := tt_chain token; tid_address := tokenAddress |} in
      match findTokenConfigV1 config tokenIdV2 (tokensArr config) with
      | None => throw (Error "Unknown token")
      | Some tokenV1 =>
        let fromChain := r_from receipt in
        let decimals :=
          getTokenDecimals config fromChain
            (getWrappedTokenId config tokenV1) in
        let amount :=
          amount_display config (Z_toString (tt_amount token))
            (Z.min 8 decimals) in
        let extension (f : RelayPayload -> option Z) :=
          match truthy (p_payload payload ≫= f) with
          | Some v => Some (amount_fmt config v (Z.min 8 decimals))
          | None => None
          end in
        do recipient <-
          match p_to payload with
          | Some to =>
            do r <- recipient_of (r_to receipt) (to_address to) ;;
            ret (Some r)
          | None => ret None
          end ;;
        ret {| sendTx := sendTx;
               sender := None;
               recipient := recipient;
               amount := amount;
               toChain := r_to receipt;
               fromChain := r_from receipt;
               tokenAddress := tokenAddress;
               tokenKey := tk_key tokenV1;
               tokenDecimals := decimals;
               receivedTokenKey := tk_key tokenV1;
               receiveAmount := Some amount;
               relayerFee :=
                 match extension targetRelayerFee with
                 | Some f => Some {| fee := f;
                                     fee_tokenKey := tk_key tokenV1 |}
                 | None => None
                 end;
               receiveNativeAmount := extension toNativeTokenAmount;
               eta := None |}
      end
    end
  | _ => throw TypeError
  end.

Definition parseCCTPReceipt (receipt : Receipt) : M TransferInfo :=
  do sendTx <- origin_txid receipt ;;
  match r_attestation receipt with
  | CircleAttestation None => throw (Error "Missing Circle attestation")
  | CircleAttestation (Some payload) =>
    let sourceTokenId :=
      {| tid_chain := r_from receipt;
         tid_address := toNative config (r_from receipt)
                          (burnToken payload) |} in
    match findTokenConfigV1 config sourceTokenId (tokensArr config) with
    | None => throw (Error "Couldn't find USDC for source chain")
    | Some usdcLegacy =>
      let decimals :=
        getTokenDecimals config (r_from receipt)
          (getWrappedTokenId config usdcLegacy) in
      let amount :=
        amount_display config (Z_toString (circle_amount payload))
          decimals in
      do recipient <- recipient_of (r_to receipt) (mintRecipient payload) ;;
      match find (fun token =>
                    String.eqb (tk_symbol token) "USDC"
                    && String.eqb (tk_nativeChain token) (r_to receipt))
                 (tokensArr config) with
      | None => throw (Error "Couldn't find USDC for destination chain")
      | Some destinationUsdcLegacy =>
        ret {| sendTx := sendTx;
               sender := Some (toNative config (r_from receipt)
                                 (messageSender payload));
               recipient := Some recipient;
               amount := amount;
               toChain := r_to receipt;
               fromChain := r_from receipt;
               tokenAddress := tid_address sourceTokenId;
               tokenKey := tk_key usdcLegacy;
               tokenDecimals := decimals;
               receivedTokenKey := tk_key destinationUsdcLegacy;
               receiveAmount := Some amount;
               relayerFee := None;
               receiveNativeAmount := None;
               eta := None |}
      end
    end
  | _ => throw TypeError
  end.

Definition parseNttReceipt (receipt : Receipt) : M TransferInfo :=
  do sendTx <- origin_txid receipt ;;
  match r_params receipt with
  | None => throw TypeError
  | Some params =>
    let srcTokenIdV2 :=
      {| tid_chain := r_from receipt;
         tid_address := sourceContracts_token params |} in
    match findTokenConfigV1 config srcTokenIdV2 (tokensArr config) with
    | None => throw (Error "Unknown src token")
    | Some srcTokenV1 =>
      let dstTokenIdV2 :=
        {| tid_chain := r_to receipt;
           tid_address := destinationContracts_token params |} in
      match findTokenConfigV1 config dstTokenIdV2 (tokensArr config) with
      | None => throw (Error "Unknown dst token")
      | Some dstTokenV1 =>
        match r_attestation receipt with
        | NttAttestation payloadName shape =>
          let payload :=
            if String.eqb payloadName "WormholeTransfer" then
              match shape with top_level m => Some m | nested _ => None end
            else
              match shape with nested m => Some m | top_level _ => None end in
          match payload, tk_tokenId srcTokenV1 with
          | Some m, Some srcId =>
            let amt :=
              amount_display config
                (Z_toString (ta_amount (trimmedAmount m)))
                (ta_decimals (trimmedAmount m)) in
            ret {| sendTx := sendTx;
                   sender := Some (toNative config (r_from receipt)
                                     (ntt_sender m));
                   recipient := Some (toNative config (r_to receipt)
                                        (recipientAddress m));
                   amount := amt;
                   toChain := r_to receipt;
                   fromChain := r_from receipt;
                   tokenAddress := tid_address srcId;
                   tokenKey := tk_key srcTokenV1;
                   tokenDecimals := ta_decimals (trimmedAmount m);
                   receivedTokenKey := tk_key dstTokenV1;
                   receiveAmount := Some amt;
                   relayerFee := None;
                   receiveNativeAmount := None;
                   eta := None |}
          | _, _ => throw TypeError
          end
        | _ => throw TypeError
        end
      end
    end
  end.

Definition parseReceipt (route : string) (receipt : Receipt)
  : M TransferInfo :=
  if String.eqb route "ManualTokenBridge" then
    parseTokenBridgeReceipt receipt
  else if String.eqb route "ManualCCTP" then parseCCTPReceipt receipt
  else if String.eqb route "ManualNtt" then parseNttReceipt receipt
  else if String.eqb route "AutomaticNtt" then parseNttReceipt receipt
  else throw (Error ("Unknown route type " +:+ route)).

End Sdkv2.

(** ** The SDK's amount rendering *)

Fixpoint drop_trailing_zeros (digits : list ascii) : list ascii :=
  match digits with
  | [] => []
  | c :: rest =>
    match drop_trailing_zeros rest with
    | [] => if Ascii.eqb c "0" then [] else [c]
    | kept => c :: kept
    end
  end.

(** Modelled from the spec: [amount.display] of the SDK, which is not among
    the sources.  The integer text [amount] is read with its last
    [decimals] digits as the fraction (zero-filled on the left when the
    text is shorter), and written as a decimal string: the whole part, and
    after a point the fraction without trailing zeros, when any digit of
    it is left. *)
Definition display (amount : string) (decimals : Z) : string :=
  let d := Z.to_nat decimals in
  let digits := list_ascii_of_string amount in
  let padded := (replicate (d - length digits)%nat "0"%char ++ digits)%list in
  let n := (length padded - d)%nat in
  let whole := match take n padded with [] => ["0"%char] | w => w end in
  let partial := drop_trailing_zeros (drop n padded) in
  string_of_list_ascii
    match partial with
    | [] => whole
    | _ => (whole ++ "."%char :: partial)%list
    end.

(** ** A small configuration to run the functions on *)

Module Sample.

Definition Ethereum : ChainConfig :=
  {| cc_key := "Ethereum"; cc_context := ETH; cc_chainId := NumId 1 |}.
Definition Osmosis : ChainConfig :=
  {| cc_key := "Osmosis"; cc_context := COSMOS;
     cc_chainId := StrId "osmosis-1" |}.
Definition Sui : ChainConfig :=
  {| cc_key := "Sui"; cc_context := SUI; cc_chainId := NumId 0 |}.

Definition Bsc : ChainConfig :=
  {| cc_key := "Bsc"; cc_context := ETH; cc_chainId := NumId 56 |}.

Definition all_chains : list ChainConfig := [Ethereum; Bsc; Osmosis; Sui].

Definition USDC : TokenConfig :=
  {| tk_key := "USDC"; tk_symbol := "USDC"; tk_nativeChain := "Ethereum";
     tk_tokenId := Some {| tid_chain := "Ethereum"; tid_address := "0xa0b8" |};
     tk_foreignAssets :=
       {[ "Sui" := {| fa_address := "0x5d4b"; fa_decimals := 6 |} ]} |}.

Definition WETH : TokenConfig :=
  {| tk_key := "WETH"; tk_symbol := "WETH"; tk_nativeChain := "Ethereum";
     tk_tokenId := Some {| tid_chain := "Ethereum"; tid_address := "0xc02a" |};
     tk_foreignAssets := ∅ |}.

Definition TokenId_eqb (a b : TokenId) : bool :=
  String.eqb (tid_chain a) (tid_chain b)
  && String.eqb (tid_address a) (tid_address b).

Definition config : Config :=
  {| chains := fun chain =>
       find (fun c => String.eqb (cc_key c) chain) all_chains;
     getChainByChainId := fun id =>
       find (fun c => ChainId_eqb (cc_chainId c) id) all_chains;
     contextName := fun c =>
       match c with
       | ETH => "Ethereum" | SOLANA => "Solana" | SUI => "Sui"
       | APTOS => "Aptos" | SEI => "Sei" | COSMOS => "Cosmos"
       | OTHER => "Other"
       end;
     tokensArr := [USDC; WETH];
     toTokenIdV2 := fun t =>
       default {| tid_chain := tk_nativeChain t; tid_address := "native" |}
               (tk_tokenId t);
     findTokenConfigV1 := fun id tokens =>
       find (fun t => match tk_tokenId t with
                      | Some i => TokenId_eqb i id
                      | None => false
                      end) tokens;
     getWrappedTokenId := fun t =>
       default {| tid_chain := tk_nativeChain t; tid_address := "native" |}
               (tk_tokenId t);
     getTokenDecimals := fun _ id =>
       if String.eqb (tid_address id) "0xa0b8" then 6 else 18;
     rpcs_Solana := None;
     amount_display := display;
     amount_fmt := fun z d => display (Z_toString z) d;
     toNative := fun _ a => a |}.

Definition MetaMask : Wallet :=
  {| wid := 1; getName := "MetaMask"; getIcon := "metamask.svg";
     getWalletState := Installed |}.
Definition Keplr : Wallet :=
  {| wid := 2; getName := "Keplr"; getIcon := "keplr.svg";
     getWalletState := Installed |}.

(** An outside world in which every wallet sits on Ethereum mainnet with
    an address, and whose answers to [connect], to the two chain-switch
    adapters and to the wrapped-asset query are given. *)
Definition outside (connect evm_switch cosmos_switch : Completion unit)
    (wrapped : Completion (option TokenAddress)) : Outside :=
  {| getNetworkInfo_chainId := fun _ _ => NumId 1;
     getAddress := fun _ w => Some ("0xabc" +:+ getName w);
     wallet_connect := fun _ _ _ => connect;
     fetch_wallets := fun _ src =>
       match src with
       | evm_wallets => Return [MetaMask]
       | cosmos_wallets => Return [Keplr]
       | _ => Return []
       end;
     evm_switchChain := fun _ _ _ => evm_switch;
     cosmos_switchChain := fun _ _ _ => cosmos_switch;
     evm_signAndSendTransaction := fun _ req _ _ _ => Return ("0xtx" +:+ req);
     solana_signAndSendTransaction := fun _ req _ _ => Return ("sig" +:+ req);
     sui_signAndSendTransaction := fun _ req _ =>
       Return {| tx_id := "sui" +:+ req |};
     aptos_signAndSendTransaction := fun _ req _ =>
       Return {| tx_id := "apt" +:+ req |};
     getWormholeContextV2 := fun _ => Return tt;
     getTokenBridge := fun _ _ => Return tt;
     getWrappedAsset := fun _ _ _ => wrapped;
     getTokenNativeAddress := fun _ _ a => Return a;
     splToken_getAccount_owner := fun _ _ => Throw (Error "no account") |}.

Definition calm : Outside :=
  outside (Return tt) (Return tt) (Return tt)
    (Return (Some (NativeAddress "0xwrapped"))).

(** Wallets that cannot switch chains; wallets that refuse to connect;
    a bridge RPC that is down. *)
Definition deaf : Outside :=
  outside (Return tt) (Throw NotSupported) (Throw NotSupported)
    (Return None).
Definition refusing : Outside :=
  outside (Throw (Error "User rejected the request")) (Return tt)
    (Return tt) (Return None).
Definition down : Outside :=
  outside (Return tt) (Return tt) (Return tt)
    (Throw (Error "rpc unreachable")).

Definition world (s r : option Wallet) (ls : gmap string string) : World :=
  {| walletConnection := {| sending := s; receiving := r |};
     localStorage := ls;
     wrappedTokenAddressCache := ∅;
     calls := [] |}.

Definition receipt (token : string) (wire : Z) : Receipt :=
  {| r_from := "Ethereum"; r_to := "Sui";
     r_originTxs := Some [ {| tx_chain := "Ethereum"; txid := "0xfirst" |};
                           {| tx_chain := "Ethereum"; txid := "0xlast" |} ];
     r_attestation :=
       TransferVAA {| p_token := Some {| tt_chain := "Ethereum";
                                         tt_address := token;
                                         tt_amount := wire |};
                      p_to := Some {| to_chain := "Sui";
                                      to_address := "0xrecipient" |};
                      p_payload := None |};
     r_params := None |}.

Definition receipt_without_origin : Receipt :=
  {| r_from := "Ethereum"; r_to := "Sui";
     r_originTxs := Some [];
     r_attestation := r_attestation (receipt "0xc02a" 1);
     r_params := None |}.

(** What the 18-decimal receipt parses to. *)
Definition weth_info : TransferInfo :=
  {| sendTx := "0xlast";
     sender := None;
     recipient := Some "0xrecipient";
     amount := "1.23456789";
     toChain := "Sui";
     fromChain := "Ethereum";
     tokenAddress := "0xc02a";
     tokenKey := "WETH";
     tokenDecimals := 18;
     receivedTokenKey := "WETH";
     receiveAmount := Some "1.23456789";
     relayerFee := None;
     receiveNativeAmount := None;
     eta := None |}.

End Sample.

(** ** Vocabulary of the properties *)

Definition Completion_map {A B} (f : A -> B) (c : Completion A)
  : Completion B :=
  match c with
  | Return a => Return (f a)
  | Throw e => Throw e
  end.

Definition adapter_calls (s : World) : list Call :=
  List.filter is_adapter_call (calls s).

Definition live_lookups (s : World) : nat :=
  length (List.filter is_live_lookup (calls s)).

Section Lookup.
Variable config : Config.
Variable out : Outside.

(** The world after the three requests of a live lookup. *)
Definition after_lookup (token : TokenConfig) (chain : Chain) (s : World)
  : World :=
  log_call (c_getWrappedAsset chain (toTokenIdV2 config token))
    (log_call (c_getTokenBridge chain) (log_call c_getWormholeContextV2 s)).

(** The bridge's answer to the wrapped-asset query asked from [s]. *)
Definition live_answer (token : TokenConfig) (chain : Chain) (s : World)
  : Completion (option TokenAddress) :=
  getWrappedAsset out
    (c_getTokenBridge chain :: c_getWormholeContextV2 :: calls s)
    chain (toTokenIdV2 config token).

(** The bridge client for [chain] can be obtained from [s]. *)
Definition bridge_reachable (chain : Chain) (s : World) : Prop :=
  getWormholeContextV2 out (calls s) = Return tt
  /\ getTokenBridge out (c_getWormholeContextV2 :: calls s) chain
     = Return tt.

End Lookup.

(** ** The static tier of the resolver *)





(** ** The statements the code does not meet *)

(** On a wallet already at the requested chain, [switchChain] would return
    the wallet's address. *)
Definition switchChain_returns_address_when_there : Prop :=
  forall config out chainId type s w,
    binding (walletConnection s) type = Some w ->
    getNetworkInfo_chainId out (calls s) w = chainId ->
    fst (switchChain config out chainId type s)
    = Return (getAddress out (calls s) w).

(** On a configured chain [connectLastUsedWallet] would always complete
    normally. *)
Definition connectLastUsedWallet_never_throws : Prop :=
  forall config out type chain cc s,
    chains config chain = Some cc ->
    fst (connectLastUsedWallet config out type chain s) = Return tt.

(** A [NotSupported] from either chain-switch adapter would leave
    [switchChain] completing normally. *)
Definition unsupported_switch_completes : Prop :=
  forall config out chainId type s w cfg,
    binding (walletConnection s) type = Some w ->
    getNetworkInfo_chainId out (calls s) w <> chainId ->
    getChainByChainId config chainId = Some cfg ->
    (cc_context cfg = ETH
     /\ evm_switchChain out (calls s) w chainId = Throw NotSupported)
    \/ (cc_context cfg = COSMOS
        /\ cosmos_switchChain out (calls s) w chainId = Throw NotSupported) ->
    exists r, fst (switchChain config out chainId type s) = Return r.

(** ** Further functions of the sources *)

(** [walletAcceptedChains], with [config.chainsArr] passed in.  The only
    falsy context is the absent one. *)
Definition walletAcceptedChains (chainsArr : list ChainConfig)
    (context : option Context) : list Chain :=
  match context with
  | None => map cc_key chainsArr
  | Some context =>
    map cc_key
      (filter (fun c => Context_eqb (cc_context c) context) chainsArr)
  end.

Record ExplorerInfo := {
  ex_url : string;
  ex_name : string;
  ex_apiUrl : string;
}.

(** What [getExplorerInfo] reads: the constant [WORMSCAN] and three
    members of [config]. *)
Record ExplorerSettings := {
  WORMSCAN : string;
  mayanApi : string;
  wormholeApi : string;
  isMainnet : bool;
}.

(** [getExplorerInfo], on the route's name. *)
Definition getExplorerInfo (cfg : ExplorerSettings) (routeName txHash : string)
  : ExplorerInfo :=
  if String.prefix "MayanSwap" routeName then
    {| ex_url := "https://explorer.mayan.finance/swap/" +:+ txHash;
       ex_name := "Mayan Explorer";
       ex_apiUrl := mayanApi cfg +:+ "/v3/swap/trx/" +:+ txHash |}
  else
    {| ex_url := WORMSCAN cfg +:+ "tx/" +:+ txHash
                 +:+ (if isMainnet cfg then "" else "?network=TESTNET");
       ex_name := "Wormholescan";
       ex_apiUrl := wormholeApi cfg +:+ "api/v1/operations?txHash="
                    +:+ txHash |}.

(** Values of type [any], as far as [typeof] and a member read can tell
    them apart.  The payload of a number plays no part. *)
#[local] Set Warnings "-register-all".
Inductive JsValue :=
| js_undefined
| js_null
| js_boolean (b : bool)
| js_number (n : Z)
| js_string (s : string)
| js_object (members : list (string * JsValue)).

Definition typeof (v : JsValue) : string :=
  match v with
  | js_undefined => "undefined"
  | js_null => "object"
  | js_boolean _ => "boolean"
  | js_number _ => "number"
  | js_string _ => "string"
  | js_object _ => "object"
  end.

Fixpoint own_member (k : string) (members : list (string * JsValue))
  : JsValue :=
  match members with
  | [] => js_undefined
  | (k', v) :: rest => if String.eqb k' k then v else own_member k rest
  end.

(** [v.k]: a [TypeError] on [undefined] and [null], [undefined] for a
    member that is not there. *)
Definition member (v : JsValue) (k : string) : Completion JsValue :=
  match v with
  | js_undefined | js_null => Throw TypeError
  | js_object members => Return (own_member k members)
  | _ => Return js_undefined
  end.

Definition isAmount (amount : JsValue) : Completion bool :=
  if String.eqb (typeof amount) "object" then
    match member amount "amount" with
    | Throw e => Throw e
    | Return a =>
      if String.eqb (typeof a) "string" then
        match member amount "decimals" with
        | Throw e => Throw e
        | Return d => Return (String.eqb (typeof d) "number")
        end
      else Return false
    end
  else Return false.

(** [isAmount(error?.min)]. *)
Definition isMinAmountError (error : JsValue) : Completion bool :=
  match error with
  | js_undefined | js_null => isAmount js_undefined
  | _ =>
    match member error "min" with
    | Throw e => Throw e
    | Return min => isAmount min
    end
  end.

(** The shortlist of the token picker ([topTokens] of the token list
    view).  [tokens] is [config.tokens], [wrappedAsset] reads the member of
    that name, and each entry of [balances] says whether
    [Number(val?.balance) > 0]. *)
Definition SHORT_LIST_SIZE : nat := 5.

Definition nonempty (s : option string) : option string :=
  match s with
  | Some k => if String.eqb k "" then None else Some k
  | None => None
  end.

Section TopTokens.
Variable tokens : string -> option TokenConfig.
Variable wrappedAsset : TokenConfig -> option string.

Definition find_key (key : string) (l : list TokenConfig)
  : option TokenConfig :=
  find (fun t => String.eqb (tk_key t) key) l.

Definition push_balance (tokenList : list TokenConfig)
    (added : list TokenConfig) (entry : string * bool) : list TokenConfig :=
  if snd entry then
    match find_key (fst entry) tokenList, find_key (fst entry) added with
    | Some tokenConfig, None =>
      if (length added <? SHORT_LIST_SIZE)%nat then (added ++ [tokenConfig])%list
      else added
    | _, _ => added
    end
  else added.

Definition push_fill (added : list TokenConfig) (t : TokenConfig)
  : list TokenConfig :=
  match find_key (tk_key t) added with
  | None =>
    if (length added <? SHORT_LIST_SIZE)%nat then (added ++ [t])%list else added
  | Some _ => added
  end.

Definition topTokens (tokenList : option (list TokenConfig))
    (selectedToken sourceToken : option string) (gasToken : string)
    (balances : list (string * bool)) : list TokenConfig :=
  let items := default [] tokenList in
  let selectedTokenConfig := nonempty selectedToken ≫= tokens in
  let nativeTokenConfig := find_key gasToken items in
  let first := match selectedTokenConfig with
               | Some t => [t]
               | None => []
               end in
  let second :=
    match nonempty sourceToken ≫= tokens with
    | Some sourceToken =>
      match nonempty (wrappedAsset sourceToken) with
      | Some destTokenKey =>
        match find_key destTokenKey items with
        | Some destToken => (first ++ [destToken])%list
        | None => first
        end
      | None => first
      end
    | None => first
    end in
  let third :=
    match nativeTokenConfig with
    | Some n =>
      match selectedTokenConfig with
      | Some sel =>
        if String.eqb (tk_key n) (tk_key sel) then second
        else (second ++ [n])%list
      | None => (second ++ [n])%list
      end
    | None => second
    end in
  let fourth := fold_left (push_balance items) balances third in
  fold_left push_fill items fourth.

End TopTokens.

(** ** Vocabulary of the further properties *)

(** The log of [s1] is the log of [s] with newer requests in front. *)
Definition log_grows (s s1 : World) : Prop :=
  exists newer, calls s1 = (newer ++ calls s)%list.

(** Only the log may differ. *)
Definition only_logs (s s1 : World) : Prop :=
  walletConnection s1 = walletConnection s
  /\ localStorage s1 = localStorage s
  /\ wrappedTokenAddressCache s1 = wrappedTokenAddressCache s
  /\ log_grows s s1.

(** The computation [m] changes nothing but the log, and adds at most [n]
    requests to it. *)
Definition makes_at_most (n : nat) {A} (m : M A) : Prop :=
  forall s,
    walletConnection (snd (m s)) = walletConnection s
    /\ localStorage (snd (m s)) = localStorage s
    /\ wrappedTokenAddressCache (snd (m s)) = wrappedTokenAddressCache s
    /\ exists newer,
         calls (snd (m s)) = (newer ++ calls s)%list
         /\ (length newer <= n)%nat.

Definition names (l : list Wallet) : list string := map getName l.

Definition other (type : TransferWallet) : TransferWallet :=
  match type with
  | SENDING => RECEIVING
  | RECEIVING => SENDING
  end.

Definition returns {A} (c : Completion A) : bool :=
  match c with
  | Return _ => true
  | Throw _ => false
  end.

(** The outside world [out], with another answer to the token-account
    lookup. *)
Definition with_account_lookup (out : Outside)
    (lookup : list Call -> string -> Completion string) : Outside :=
  {| getNetworkInfo_chainId := getNetworkInfo_chainId out;
     getAddress := getAddress out;
     wallet_connect := wallet_connect out;
     fetch_wallets := fetch_wallets out;
     evm_switchChain := evm_switchChain out;
     cosmos_switchChain := cosmos_switchChain out;
     evm_signAndSendTransaction := evm_signAndSendTransaction out;
     solana_signAndSendTransaction := solana_signAndSendTransaction out;
     sui_signAndSendTransaction := sui_signAndSendTransaction out;
     aptos_signAndSendTransaction := aptos_signAndSendTransaction out;
     getWormholeContextV2 := getWormholeContextV2 out;
     getTokenBridge := getTokenBridge out;
     getWrappedAsset := getWrappedAsset out;
     getTokenNativeAddress := getTokenNativeAddress out;
     splToken_getAccount_owner := lookup |}.

(** The receipt [r] carrying another attestation. *)
Definition with_attestation (r : Receipt) (a : Attestation) : Receipt :=
  {| r_from := r_from r; r_to := r_to r; r_originTxs := r_originTxs r;
     r_attestation := a; r_params := r_params r |}.

Definition known_routes : list string :=
  ["ManualTokenBridge"; "ManualCCTP"; "ManualNtt"; "AutomaticNtt"].

(** A [TransferInfo] without its recipient. *)
Definition forget_recipient (i : TransferInfo) : TransferInfo :=
  {| sendTx := sendTx i; sender := sender i; recipient := None;
     amount := amount i; toChain := toChain i; fromChain := fromChain i;
     tokenAddress := tokenAddress i; tokenKey := tokenKey i;
     tokenDecimals := tokenDecimals i;
     receivedTokenKey := receivedTokenKey i;
     receiveAmount := receiveAmount i; relayerFee := relayerFee i;
     receiveNativeAmount := receiveNativeAmount i; eta := eta i |}.

(** What every step of the shortlist keeps: the list so far stays in
    front, stays within the size limit, and gains only tokens of the
    token list. *)
Definition shortlist_step (items before after : list TokenConfig) : Prop :=
  (exists more,
     after = (before ++ more)%list /\ Forall (fun t => In t items) more)
  /\ ((length before <= SHORT_LIST_SIZE)%nat ->
      (length after <= SHORT_LIST_SIZE)%nat).

(** ** More samples to run the functions on *)

Module Sample2.

Definition USDC_Sui : TokenConfig :=
  {| tk_key := "USDCsui"; tk_symbol := "USDC"; tk_nativeChain := "Sui";
     tk_tokenId := Some {| tid_chain := "Sui"; tid_address := "0x5d4b" |};
     tk_foreignAssets := ∅ |}.

Definition W_Sui : TokenConfig :=
  {| tk_key := "Wsui"; tk_symbol := "W"; tk_nativeChain := "Sui";
     tk_tokenId := Some {| tid_chain := "Sui"; tid_address := "0xa7e1" |};
     tk_foreignAssets := ∅ |}.

(** [Sample.config] with two tokens native to Sui added. *)
Definition config : Config :=
  {| chains := chains Sample.config;
     getChainByChainId := getChainByChainId Sample.config;
     contextName := contextName Sample.config;
     tokensArr := [Sample.USDC; Sample.WETH; USDC_Sui; W_Sui];
     toTokenIdV2 := toTokenIdV2 Sample.config;
     findTokenConfigV1 := findTokenConfigV1 Sample.config;
     getWrappedTokenId := getWrappedTokenId Sample.config;
     getTokenDecimals := getTokenDecimals Sample.config;
     rpcs_Solana := rpcs_Solana Sample.config;
     amount_display := amount_display Sample.config;
     amount_fmt := amount_fmt Sample.config;
     toNative := toNative Sample.config |}.

(** [Sample.calm] without a reachable Wormhole context. *)
Definition offline : Outside :=
  {| getNetworkInfo_chainId := getNetworkInfo_chainId Sample.calm;
     getAddress := getAddress Sample.calm;
     wallet_connect := wallet_connect Sample.calm;
     fetch_wallets := fetch_wallets Sample.calm;
     evm_switchChain := evm_switchChain Sample.calm;
     cosmos_switchChain := cosmos_switchChain Sample.calm;
     evm_signAndSendTransaction := evm_signAndSendTransaction Sample.calm;
     solana_signAndSendTransaction :=
       solana_signAndSendTransaction Sample.calm;
     sui_signAndSendTransaction := sui_signAndSendTransaction Sample.calm;
     aptos_signAndSendTransaction := aptos_signAndSendTransaction Sample.calm;
     getWormholeContextV2 := fun _ => Throw (Error "no network");
     getTokenBridge := getTokenBridge Sample.calm;
     getWrappedAsset := getWrappedAsset Sample.calm;
     getTokenNativeAddress := getTokenNativeAddress Sample.calm;
     splToken_getAccount_owner := splToken_getAccount_owner Sample.calm |}.

Definition WalletConnect : WalletData :=
  {| wd_name := "WalletConnect"; wd_type := ETH; wd_icon := "wc.svg";
     wd_isReady := true;
     wd_wallet := {| wid := 3; getName := "WalletConnect";
                     getIcon := "wc.svg"; getWalletState := Loadable |} |}.

Definition origin : option (list TransactionId) :=
  Some [ {| tx_chain := "Ethereum"; txid := "0xfirst" |};
         {| tx_chain := "Ethereum"; txid := "0xlast" |} ].

Definition manager_payload : NttManagerPayload :=
  {| ntt_sender := "0xsender"; recipientAddress := "0xrecipient";
     trimmedAmount := {| ta_amount := 1250000; ta_decimals := 6 |} |}.

Definition ntt_receipt : Receipt :=
  {| r_from := "Ethereum"; r_to := "Sui"; r_originTxs := origin;
     r_attestation :=
       NttAttestation "WormholeTransfer" (top_level manager_payload);
     r_params := Some {| sourceContracts_token := "0xc02a";
                         destinationContracts_token := "0xa7e1" |} |}.

Definition cctp_receipt : Receipt :=
  {| r_from := "Ethereum"; r_to := "Sui"; r_originTxs := origin;
     r_attestation :=
       CircleAttestation
         (Some {| burnToken := "0xa0b8"; circle_amount := 2500000;
                  messageSender := "0xsender";
                  mintRecipient := "0xrecipient" |});
     r_params := None |}.

(** A relayed token-bridge transfer with a fee and a gas amount of zero. *)
Definition relayed_payload : TransferPayload :=
  {| p_token := Some {| tt_chain := "Ethereum"; tt_address := "0xc02a";
                        tt_amount := 123456789 |};
     p_to := Some {| to_chain := "Sui"; to_address := "0xrecipient" |};
     p_payload := Some {| toNativeTokenAmount := Some 0;
                          targetRelayerFee := Some 5000000 |} |}.

Definition relayed_receipt : Receipt :=
  {| r_from := "Ethereum"; r_to := "Sui"; r_originTxs := origin;
     r_attestation := TransferVAA relayed_payload;
     r_params := None |}.

Definition start : World := Sample.world None None ∅.

Definition parsed (c : Completion TransferInfo * World) : TransferInfo :=
  match fst c with
  | Return info => info
  | Throw _ => Sample.weth_info
  end.

Definition ntt_info : TransferInfo :=
  Eval vm_compute in parsed (parseNttReceipt config ntt_receipt start).

Definition relayed_info : TransferInfo :=
  Eval vm_compute in
    parsed (parseReceipt config Sample.calm "ManualTokenBridge"
              relayed_receipt start).


(** A CCTP receipt that burns an 18-decimal token. *)
Definition fine_receipt : Receipt :=
  {| r_from := "Ethereum"; r_to := "Sui"; r_originTxs := origin;
     r_attestation :=
       CircleAttestation
         (Some {| burnToken := "0xc02a";
                  circle_amount := 1234567890123456789;
                  messageSender := "0xsender";
                  mintRecipient := "0xrecipient" |});
     r_params := None |}.

Definition fine_info : TransferInfo :=
  Eval vm_compute in
    parsed (parseReceipt config Sample.calm "ManualCCTP" fine_receipt start).

(** A world whose cache already holds an address. *)
Definition cached : World :=
  {| walletConnection := {| sending := None; receiving := None |};
     localStorage := ∅;
     wrappedTokenAddressCache := {[ ("WETH", "Sui") := NativeAddress "0x0ld" ]};
     calls := [] |}.

End Sample2.

(** * Properties *)

Lemma ChainId_eqb_eq (a b : ChainId) : ChainId_eqb a b = true <-> a = b.
Proof.
  destruct a as [n|x], b as [m|y]; simpl; split; intro H;
    try discriminate; try congruence.
  - apply Z.eqb_eq in H. congruence.
  - inversion H. apply Z.eqb_refl.
  - apply String.eqb_eq in H. congruence.
  - inversion H. apply String.eqb_refl.
Qed.

Lemma ChainId_eqb_neq (a b : ChainId) : ChainId_eqb a b = false <-> a <> b.
Proof.
  split.
  - intros H E. apply ChainId_eqb_eq in E. congruence.
  - intros H. destruct (ChainId_eqb a b) eqn:E; [|reflexivity].
    apply ChainId_eqb_eq in E. contradiction.
Qed.

(** ** Wallet session registry *)

(** C9.  One swap exchanges the sending and the receiving binding, absent
    ones included, and leaves the rest of the world alone; two swaps in a
    row give back the world they started from. *)
Theorem swapWalletConnections_involution (s : World) :
  let s1 := snd (swapWalletConnections s) in
  let s2 := snd (swapWalletConnections s1) in
  fst (swapWalletConnections s) = Return tt
  /\ binding (walletConnection s1) SENDING
     = binding (walletConnection s) RECEIVING
  /\ binding (walletConnection s1) RECEIVING
     = binding (walletConnection s) SENDING
  /\ s2 = s.
Proof.
  destruct s as [[snd_w rcv_w] ls cache log].
  cbn. repeat split; reflexivity.
Qed.

(** ** Chain dispatcher: switchChain *)

Section SwitchChain.
Variable config : Config.
Variable out : Outside.

(** C1, as amended.  With a wallet bound to the role and already on the
    requested chain, [switchChain] makes no request at all, so no adapter
    call, leaves the world as it was, and returns [undefined]: no
    address is read. *)
Theorem switchChain_already_there (chainId : ChainId)
    (type : TransferWallet) (s : World) (w : Wallet) :
  binding (walletConnection s) type = Some w ->
  getNetworkInfo_chainId out (calls s) w = chainId ->
  switchChain config out chainId type s = (Return None, s)
  /\ adapter_calls (snd (switchChain config out chainId type s))
     = adapter_calls s.
Proof.
  intros Hw Hc.
  assert (E : switchChain config out chainId type s = (Return None, s)).
  { unfold switchChain, getWalletConnection, bind, gets, observe.
    rewrite Hw. cbn.
    apply ChainId_eqb_eq in Hc. rewrite Hc. reflexivity. }
  rewrite E. split; reflexivity.
Qed.

(** C5, as amended.  Away from the requested chain, an error of the EVM
    adapter is caught when it is [NotSupported], and the call then
    completes with [undefined]; any other error of the EVM adapter, and
    every error of the Cosmos adapter, [NotSupported] too, reaches the
    caller. *)
Theorem switchChain_adapter_error (chainId : ChainId)
    (type : TransferWallet) (s : World) (w : Wallet) (cfg : ChainConfig)
    (e : Exn) :
  binding (walletConnection s) type = Some w ->
  getNetworkInfo_chainId out (calls s) w <> chainId ->
  getChainByChainId config chainId = Some cfg ->
  (cc_context cfg = ETH ->
   evm_switchChain out (calls s) w chainId = Throw e ->
   switchChain config out chainId type s
   = (match e with NotSupported => Return None | _ => Throw e end,
      log_call (c_evm_switchChain w chainId) s))
  /\ (cc_context cfg = COSMOS ->
      cosmos_switchChain out (calls s) w chainId = Throw e ->
      switchChain config out chainId type s
      = (Throw e, log_call (c_cosmos_switchChain w chainId) s)).
Proof.
  intros Hw Hc Hcfg.
  apply ChainId_eqb_neq in Hc.
  split; intros Hctx Hthrow;
    unfold switchChain, getWalletConnection, bind, gets, observe,
      try_catch, request;
    rewrite Hw; cbn; rewrite Hc, Hcfg, Hctx; cbn; rewrite Hthrow.
  - destruct e; reflexivity.
  - reflexivity.
Qed.

(** C8.  Without a wallet on the role [signAndSendTransaction] throws
    "wallet is undefined", whatever the chain.  With a wallet and a
    configured chain it hands the request to the adapter of the chain's
    context (EVM, Solana, Sui or Aptos) and returns that adapter's
    transaction id, or its error; for Cosmos, Sei and any other context
    it throws "unimplemented" without calling anything. *)
Theorem signAndSendTransaction_dispatch (chain : Chain)
    (req : UnsignedTransaction) (type : TransferWallet)
    (options : SendOptions) (s : World) :
  match binding (walletConnection s) type with
  | None =>
    signAndSendTransaction config out chain req type options s
    = (Throw (Error "wallet is undefined"), s)
  | Some w =>
    forall cc, chains config chain = Some cc ->
    signAndSendTransaction config out chain req type options s
    = match cc_context cc with
      | ETH =>
        (evm_signAndSendTransaction out (calls s) req w chain options,
         log_call (c_evm_signAndSend req w chain options) s)
      | SOLANA =>
        (solana_signAndSendTransaction out (calls s) req w options,
         log_call (c_solana_signAndSend req w options) s)
      | SUI =>
        (Completion_map tx_id
           (sui_signAndSendTransaction out (calls s) req w),
         log_call (c_sui_signAndSend req w) s)
      | APTOS =>
        (Completion_map tx_id
           (aptos_signAndSendTransaction out (calls s) req w),
         log_call (c_aptos_signAndSend req w) s)
      | SEI | COSMOS | OTHER => (Throw (Error "unimplemented"), s)
      end
  end.
Proof.
  unfold signAndSendTransaction, getWalletConnection, bind, gets, request.
  destruct (binding (walletConnection s) type) as [w|] eqn:Hw.
  - intros cc Hcc. rewrite Hcc.
    destruct (cc_context cc); cbn; try reflexivity.
    + destruct (sui_signAndSendTransaction out _ _ _); reflexivity.
    + destruct (aptos_signAndSendTransaction out _ _ _); reflexivity.
  - reflexivity.
Qed.

End SwitchChain.

(** ** Wallet session registry: restoring the last used wallet *)

Section Restore.
Variable config : Config.
Variable out : Outside.

Lemma should_restore_true (name : string) :
  name <> "" -> name <> "WalletConnect" ->
  should_restore (Some name) = true.
Proof.
  intros H1 H2. unfold should_restore.
  apply String.eqb_neq in H1, H2. rewrite H1, H2. reflexivity.
Qed.

(** C4, as amended.  [connectLastUsedWallet] reads the marker stored for
    the chain's context.  A reconnect is attempted only when the marker
    exists and names a wallet other than WalletConnect: with no marker, an
    empty one or WalletConnect, nothing is requested and nothing changes.
    With another name the chain's wallet options are fetched; a wallet of
    that name among them is connected, and an error of that connect is
    not caught: it is the outcome of [connectLastUsedWallet].  When no
    option has the name the call returns after the fetch without
    connecting, and an error of the fetch is not caught either. *)
Theorem connectLastUsedWallet_outcome (type : TransferWallet)
    (chain : Chain) (cc : ChainConfig) (s : World) :
  chains config chain = Some cc ->
  let marker := localStorage s !! storage_key config (cc_context cc) in
  (marker = None \/ marker = Some "" \/ marker = Some "WalletConnect" ->
   connectLastUsedWallet config out type chain s = (Return tt, s))
  /\ (forall name options s1 wd e,
        marker = Some name -> name <> "" -> name <> "WalletConnect" ->
        getWalletOptions out (Some cc) s = (Return options, s1) ->
        find (fun w => String.eqb (wd_name w) name) options = Some wd ->
        wallet_connect out (calls s1) (wd_wallet wd) (cc_chainId cc)
        = Throw e ->
        fst (connectLastUsedWallet config out type chain s) = Throw e)
  /\ (forall name options s1 wd,
        marker = Some name -> name <> "" -> name <> "WalletConnect" ->
        getWalletOptions out (Some cc) s = (Return options, s1) ->
        find (fun w => String.eqb (wd_name w) name) options = Some wd ->
        connectLastUsedWallet config out type chain s
        = connectWallet config out type chain wd s1)
  /\ (forall name options s1,
        marker = Some name -> name <> "" -> name <> "WalletConnect" ->
        getWalletOptions out (Some cc) s = (Return options, s1) ->
        find (fun w => String.eqb (wd_name w) name) options = None ->
        connectLastUsedWallet config out type chain s = (Return tt, s1))
  /\ (forall name e s1,
        marker = Some name -> name <> "" -> name <> "WalletConnect" ->
        getWalletOptions out (Some cc) s = (Throw e, s1) ->
        connectLastUsedWallet config out type chain s = (Throw e, s1)).
Proof.
  intros Hcc marker. subst marker.
  assert (Hopen : forall name,
             localStorage s !! storage_key config (cc_context cc) = Some name
             -> name <> "" -> name <> "WalletConnect" ->
             connectLastUsedWallet config out type chain s
             = match getWalletOptions out (Some cc) s with
               | (Return options, s1) =>
                 match find (fun w => String.eqb (wd_name w) name) options
                 with
                 | Some wd => connectWallet config out type chain wd s1
                 | None => (Return tt, s1)
                 end
               | (Throw e, s1) => (Throw e, s1)
               end).
  { intros name Hm Hne Hwc.
    unfold connectLastUsedWallet, bind, gets. rewrite Hcc, Hm.
    rewrite (should_restore_true name Hne Hwc). unfold bind.
    destruct (getWalletOptions out (Some cc) s) as [[options|e] s1];
      [|reflexivity].
    cbn [from_option id].
    destruct (find _ options); reflexivity. }
  split; [|split; [|split; [|split]]].
  - intros Hm. unfold connectLastUsedWallet, bind, gets. rewrite Hcc.
    destruct Hm as [Hm | [Hm | Hm]]; rewrite Hm; reflexivity.
  - intros name options s1 wd e Hm Hne Hwc Hopt Hfind Hconn.
    rewrite (Hopen name Hm Hne Hwc), Hopt, Hfind.
    unfold connectWallet, bind, setWalletConnection, modify, request.
    rewrite Hcc. cbn. rewrite Hconn. reflexivity.
  - intros name options s1 wd Hm Hne Hwc Hopt Hfind.
    rewrite (Hopen name Hm Hne Hwc), Hopt, Hfind. reflexivity.
  - intros name options s1 Hm Hne Hwc Hopt Hfind.
    rewrite (Hopen name Hm Hne Hwc), Hopt, Hfind. reflexivity.
  - intros name e s1 Hm Hne Hwc Hopt.
    rewrite (Hopen name Hm Hne Hwc), Hopt. reflexivity.
Qed.

End Restore.

(** ** Wrapped-token resolver *)

Section Resolver.
Variable config : Config.
Variable out : Outside.

Local Abbreviation resolve := (getTokenBridgeWrappedTokenAddress config out).

Lemma resolve_hit (token : TokenConfig) (chain : Chain) (s : World)
    (a : TokenAddress) :
  wrappedTokenAddressCache s !! (tk_key token, chain) = Some a ->
  resolve token chain s = (Return (Some a), s).
Proof.
  intros H.
  unfold getTokenBridgeWrappedTokenAddress, bind,
    wrappedTokenAddressCache_get, gets.
  rewrite H. reflexivity.
Qed.

Lemma resolve_miss (token : TokenConfig) (chain : Chain) (s : World) :
  wrappedTokenAddressCache s !! (tk_key token, chain) = None ->
  bridge_reachable out chain s ->
  resolve token chain s
  = match live_answer config out token chain s with
    | Return (Some a) =>
      (Return (Some a),
       set_cache (<[(tk_key token, chain) := a]>
                    (wrappedTokenAddressCache s))
                 (after_lookup config token chain s))
    | Return None => (Return None, after_lookup config token chain s)
    | Throw _ => (Return None, after_lookup config token chain s)
    end.
Proof.
  intros H [Hctx Hbridge].
  unfold getTokenBridgeWrappedTokenAddress, bind,
    wrappedTokenAddressCache_get, wrappedTokenAddressCache_set, gets,
    modify, try_catch, request, live_answer, after_lookup.
  rewrite H. cbn. rewrite Hctx. cbn. rewrite Hbridge. cbn.
  destruct (getWrappedAsset out _ chain _) as [[a|]|e]; reflexivity.
Qed.

Lemma resolve_cache_written (token : TokenConfig) (chain : Chain)
    (s : World) :
  wrappedTokenAddressCache (snd (resolve token chain s))
  = wrappedTokenAddressCache s
  \/ exists a,
       live_answer config out token chain s = Return (Some a)
       /\ fst (resolve token chain s) = Return (Some a)
       /\ wrappedTokenAddressCache (snd (resolve token chain s))
          = <[(tk_key token, chain) := a]> (wrappedTokenAddressCache s).
Proof.
  unfold getTokenBridgeWrappedTokenAddress, bind,
    wrappedTokenAddressCache_get, wrappedTokenAddressCache_set, gets,
    modify, try_catch, request, live_answer.
  destruct (wrappedTokenAddressCache s !! (tk_key token, chain));
    [left; reflexivity|].
  cbn. destruct (getWormholeContextV2 out (calls s)); [|left; reflexivity].
  cbn. destruct (getTokenBridge out _ chain); [|left; reflexivity].
  cbn. destruct (getWrappedAsset out _ chain _) as [[addr|]|e];
    [right; exists addr; repeat split; reflexivity | left; reflexivity ..].
Qed.








(** C7.  From a cache without the pair, when the bridge answers with an
    address, two resolves in a row both return that address; the second
    one makes no request and changes nothing, so the two together ask the
    bridge exactly once. *)
Theorem resolve_twice_one_lookup (token : TokenConfig) (chain : Chain)
    (s : World) (a : TokenAddress) :
  wrappedTokenAddressCache s !! (tk_key token, chain) = None ->
  bridge_reachable out chain s ->
  live_answer config out token chain s = Return (Some a) ->
  let first := resolve token chain s in
  let second := resolve token chain (snd first) in
  fst first = Return (Some a)
  /\ fst second = Return (Some a)
  /\ snd second = snd first
  /\ live_lookups (snd second) = S (live_lookups s).
Proof.
  intros Hmiss Hreach Hlive first second. subst first second.
  rewrite (resolve_miss token chain s Hmiss Hreach), Hlive. cbn [fst snd].
  rewrite resolve_hit with (a := a).
  - repeat split; reflexivity.
  - cbn. apply lookup_insert_eq.
Qed.

(** C10.  The cache is written only with an address the bridge has
    given.  When the query throws or gives nothing, the resolver returns
    not-found and the cache is what it was, so the next resolve of the
    pair asks the bridge again. *)
Theorem failed_lookup_not_cached (token : TokenConfig) (chain : Chain)
    (s : World) :
  let s1 := snd (resolve token chain s) in
  (wrappedTokenAddressCache s1 = wrappedTokenAddressCache s
   \/ exists a,
        live_answer config out token chain s = Return (Some a)
        /\ fst (resolve token chain s) = Return (Some a)
        /\ wrappedTokenAddressCache s1
           = <[(tk_key token, chain) := a]> (wrappedTokenAddressCache s))
  /\ (wrappedTokenAddressCache s !! (tk_key token, chain) = None ->
      bridge_reachable out chain s ->
      (live_answer config out token chain s = Return None
       \/ exists e, live_answer config out token chain s = Throw e) ->
      fst (resolve token chain s) = Return None
      /\ wrappedTokenAddressCache s1 = wrappedTokenAddressCache s
      /\ (bridge_reachable out chain s1 ->
          calls (snd (resolve token chain s1))
          = c_getWrappedAsset chain (toTokenIdV2 config token)
            :: c_getTokenBridge chain :: c_getWormholeContextV2
            :: calls s1)).
Proof.
  intros s1. subst s1. split; [apply resolve_cache_written|].
  intros Hmiss Hreach Hfail.
  rewrite (resolve_miss token chain s Hmiss Hreach).
  assert (E : match live_answer config out token chain s with
              | Return (Some a) =>
                (Return (Some a),
                 set_cache (<[(tk_key token, chain) := a]>
                              (wrappedTokenAddressCache s))
                           (after_lookup config token chain s))
              | Return None => (Return None, after_lookup config token chain s)
              | Throw _ => (Return None, after_lookup config token chain s)
              end = (Return None, after_lookup config token chain s)).
  { destruct Hfail as [H | [e H]]; rewrite H; reflexivity. }
  rewrite E. cbn [fst snd]. repeat split.
  intros Hreach1.
  rewrite (resolve_miss token chain (after_lookup config token chain s));
    [| exact Hmiss | exact Hreach1].
  destruct (live_answer config out token chain (after_lookup config token chain s))
    as [[a|]|e]; reflexivity.
Qed.

End Resolver.

(** ** Receipt normalizer *)

Section Parse.
Variable config : Config.
Variable out : Outside.

Lemma origin_txid_last (receipt : Receipt) (s : World) :
  origin_txid receipt s
  = match r_originTxs receipt ≫= last with
    | Some tx => (Return (txid tx), s)
    | None => (Throw (Error "Can't find txid in receipt"), s)
    end.
Proof.
  unfold origin_txid.
  destruct (r_originTxs receipt) as [txs|]; [|reflexivity].
  cbn [mbind option_bind]. rewrite last_lookup.
  destruct txs as [|tx txs]; [reflexivity|].
  replace (0 <? length (tx :: txs))%nat with true by reflexivity.
  replace (length (tx :: txs) - 1)%nat with (pred (length (tx :: txs)))
    by (cbn; lia).
  destruct ((tx :: txs) !! pred (length (tx :: txs))) eqn:E;
    [reflexivity|].
  apply lookup_ge_None in E. cbn in E. lia.
Qed.

(** Each parser starts with the origin-transaction guard: without a last
    origin transaction it throws there, and a record it returns carries
    that transaction's id. *)
Ltac open_parser :=
  unfold parseTokenBridgeReceipt, parseCCTPReceipt, parseNttReceipt, bind;
  rewrite origin_txid_last.

Ltac walk H :=
  repeat match type of H with
         | context [match ?x with _ => _ end] =>
           destruct x eqn:?; try discriminate H
         end;
  try (injection H as <- <-; reflexivity).

Lemma parseTokenBridgeReceipt_sendTx (receipt : Receipt) (s : World) :
  match r_originTxs receipt ≫= last with
  | None =>
    parseTokenBridgeReceipt config out receipt s
    = (Throw (Error "Can't find txid in receipt"), s)
  | Some tx =>
    forall info s1,
      parseTokenBridgeReceipt config out receipt s = (Return info, s1) ->
      sendTx info = txid tx
  end.
Proof.
  open_parser.
  destruct (r_originTxs receipt ≫= last) as [tx|]; [|reflexivity].
  intros info s1 H.
  unfold ret, throw, request, recipient_of, try_catch, bind in H.
  walk H.
Qed.

Lemma parseCCTPReceipt_sendTx (receipt : Receipt) (s : World) :
  match r_originTxs receipt ≫= last with
  | None =>
    parseCCTPReceipt config out receipt s
    = (Throw (Error "Can't find txid in receipt"), s)
  | Some tx =>
    forall info s1,
      parseCCTPReceipt config out receipt s = (Return info, s1) ->
      sendTx info = txid tx
  end.
Proof.
  open_parser.
  destruct (r_originTxs receipt ≫= last) as [tx|]; [|reflexivity].
  intros info s1 H.
  unfold ret, throw, request, recipient_of, try_catch, bind in H.
  walk H.
Qed.

Lemma parseNttReceipt_sendTx (receipt : Receipt) (s : World) :
  match r_originTxs receipt ≫= last with
  | None =>
    parseNttReceipt config receipt s
    = (Throw (Error "Can't find txid in receipt"), s)
  | Some tx =>
    forall info s1,
      parseNttReceipt config receipt s = (Return info, s1) ->
      sendTx info = txid tx
  end.
Proof.
  open_parser.
  destruct (r_originTxs receipt ≫= last) as [tx|]; [|reflexivity].
  intros info s1 H.
  unfold ret, throw in H.
  walk H.
Qed.

Lemma parseReceipt_route (route : string) (receipt : Receipt) :
  In route ["ManualTokenBridge"; "ManualCCTP"; "ManualNtt"; "AutomaticNtt"]
  ->
  parseReceipt config out route receipt
  = parseTokenBridgeReceipt config out receipt
  \/ parseReceipt config out route receipt
     = parseCCTPReceipt config out receipt
  \/ parseReceipt config out route receipt
     = parseNttReceipt config receipt.
Proof.
  intros [<- | [<- | [<- | [<- | []]]]]; cbn; auto.
Qed.

(** C6.  For each of the four route kinds: a receipt whose origin
    transactions are absent or empty fails with "Can't find txid in
    receipt", before anything else is looked at; a receipt that has
    some, when its parse succeeds, has [sendTx] set to the id of the
    last of them. *)
Theorem parseReceipt_sendTx (route : string) (receipt : Receipt)
    (s : World) :
  In route ["ManualTokenBridge"; "ManualCCTP"; "ManualNtt"; "AutomaticNtt"]
  ->
  (r_originTxs receipt = None \/ r_originTxs receipt = Some [] ->
   parseReceipt config out route receipt s
   = (Throw (Error "Can't find txid in receipt"), s))
  /\ (forall txs tx info s1,
        r_originTxs receipt = Some txs ->
        last txs = Some tx ->
        parseReceipt config out route receipt s = (Return info, s1) ->
        sendTx info = txid tx).
Proof.
  intros Hroute.
  pose proof (parseTokenBridgeReceipt_sendTx receipt s) as Htb.
  pose proof (parseCCTPReceipt_sendTx receipt s) as Hcctp.
  pose proof (parseNttReceipt_sendTx receipt s) as Hntt.
  split.
  - intros Hnone.
    assert (E : r_originTxs receipt ≫= last = None)
      by (destruct Hnone as [-> | ->]; reflexivity).
    rewrite E in Htb, Hcctp, Hntt.
    destruct (parseReceipt_route route receipt Hroute) as [-> | [-> | ->]];
      assumption.
  - intros txs tx info s1 Htxs Hlast.
    assert (E : r_originTxs receipt ≫= last = Some tx)
      by (rewrite Htxs; exact Hlast).
    rewrite E in Htb, Hcctp, Hntt.
    destruct (parseReceipt_route route receipt Hroute) as [-> | [-> | ->]];
      intros H; eauto.
Qed.

Lemma parseTokenBridgeReceipt_amount (receipt : Receipt) (s s1 : World)
    (info : TransferInfo) :
  parseTokenBridgeReceipt config out receipt s = (Return info, s1) ->
  exists payload token,
    r_attestation receipt = TransferVAA payload
    /\ p_token payload = Some token
    /\ amount info
       = amount_display config (Z_toString (tt_amount token))
           (Z.min 8 (tokenDecimals info)).
Proof.
  intros H.
  unfold parseTokenBridgeReceipt, bind in H.
  destruct (origin_txid receipt s) as [[tx|e] s0]; [|discriminate H].
  destruct (r_attestation receipt) as [payload| |] eqn:Hatt;
    try discriminate H.
  destruct (p_token payload) as [token|] eqn:Htoken; [|discriminate H].
  exists payload, token. split; [reflexivity|]. split; [exact Htoken|].
  unfold ret, throw, request, recipient_of, try_catch, bind in H.
  walk H.
Qed.

End Parse.

(** C3.  A token-bridge receipt that parses has its [amount] rendered from
    the wire amount at [min(8, tokenDecimals)] decimals.  With the SDK's
    rendering, a wire amount 123456789 of an 18-decimal token shows as
    "1.23456789", and 150000000 of a 6-decimal token as "150". *)
Theorem token_bridge_amount_precision :
  (forall config out receipt s info s1,
     parseReceipt config out "ManualTokenBridge" receipt s
     = (Return info, s1) ->
     exists payload token,
       r_attestation receipt = TransferVAA payload
       /\ p_token payload = Some token
       /\ amount info
          = amount_display config (Z_toString (tt_amount token))
              (Z.min 8 (tokenDecimals info)))
  /\ Completion_map (fun i => (tokenDecimals i, amount i))
       (fst (parseReceipt Sample.config Sample.calm "ManualTokenBridge"
               (Sample.receipt "0xc02a" 123456789)
               (Sample.world None None ∅)))
     = Return (18, "1.23456789")
  /\ Completion_map (fun i => (tokenDecimals i, amount i))
       (fst (parseReceipt Sample.config Sample.calm "ManualTokenBridge"
               (Sample.receipt "0xa0b8" 150000000)
               (Sample.world None None ∅)))
     = Return (6, "150").
Proof.
  split; [|split; vm_compute; reflexivity].
  intros config out receipt s info s1 H.
  apply (parseTokenBridgeReceipt_amount config out receipt s s1 info H).
Qed.

(** C1 fails as stated: MetaMask, bound to the sending role and on chain 1
    with an address, asked to switch to chain 1: the result is
    [undefined], not the address. *)
Lemma switchChain_already_there_gives_no_address :
  ~ switchChain_returns_address_when_there.
Proof.
  intros H.
  specialize (H Sample.config Sample.calm (NumId 1) SENDING
                (Sample.world (Some Sample.MetaMask) None ∅) Sample.MetaMask
                eq_refl eq_refl).
  vm_compute in H. discriminate H.
Qed.

(** C4 fails as stated: the marker for the EVM context names MetaMask and
    MetaMask's connect is rejected; the rejection is the outcome. *)
Lemma connectLastUsedWallet_lets_connect_error_out :
  ~ connectLastUsedWallet_never_throws.
Proof.
  intros H.
  specialize (H Sample.config Sample.refusing SENDING "Ethereum"
                Sample.Ethereum
                (Sample.world None None
                   {[ "wormhole-connect:wallet:Ethereum" := "MetaMask" ]})
                eq_refl).
  vm_compute in H. discriminate H.
Qed.

(** C5 fails as stated: Keplr on chain 1 asked to switch to osmosis-1, the
    Cosmos adapter answering [NotSupported]: the error reaches the
    caller. *)
Lemma cosmos_unsupported_switch_throws :
  ~ unsupported_switch_completes.
Proof.
  intros H.
  destruct (H Sample.config Sample.deaf (StrId "osmosis-1") SENDING
              (Sample.world (Some Sample.Keplr) None ∅) Sample.Keplr
              Sample.Osmosis eq_refl ltac:(discriminate) eq_refl
              (or_intror (conj eq_refl eq_refl))) as [r Hr].
  vm_compute in Hr. discriminate Hr.
Qed.

(** ** The theorems at work on the sample configuration *)

Lemma switchChain_already_there_sample :
  let s := Sample.world (Some Sample.MetaMask) None ∅ in
  switchChain Sample.config Sample.calm (NumId 1) SENDING s = (Return None, s)
  /\ adapter_calls
       (snd (switchChain Sample.config Sample.calm (NumId 1) SENDING s))
     = adapter_calls s.
Proof.
  apply (switchChain_already_there Sample.config Sample.calm (NumId 1)
           SENDING _ Sample.MetaMask); reflexivity.
Defined.

Lemma switchChain_adapter_error_sample :
  let s := Sample.world (Some Sample.MetaMask) None ∅ in
  switchChain Sample.config Sample.deaf (NumId 56) SENDING s
  = (Return None, log_call (c_evm_switchChain Sample.MetaMask (NumId 56)) s)
  /\ switchChain Sample.config Sample.deaf (StrId "osmosis-1") SENDING s
     = (Throw NotSupported,
        log_call (c_cosmos_switchChain Sample.MetaMask (StrId "osmosis-1")) s).
Proof.
  split.
  - apply (proj1 (switchChain_adapter_error Sample.config Sample.deaf
                    (NumId 56) SENDING
                    (Sample.world (Some Sample.MetaMask) None ∅)
                    Sample.MetaMask Sample.Bsc NotSupported
                    eq_refl ltac:(discriminate) eq_refl));
      reflexivity.
  - apply (proj2 (switchChain_adapter_error Sample.config Sample.deaf
                    (StrId "osmosis-1") SENDING
                    (Sample.world (Some Sample.MetaMask) None ∅)
                    Sample.MetaMask Sample.Osmosis NotSupported
                    eq_refl ltac:(discriminate) eq_refl));
      reflexivity.
Defined.

Lemma signAndSendTransaction_dispatch_sample :
  let s := Sample.world (Some Sample.MetaMask) None ∅ in
  signAndSendTransaction Sample.config Sample.calm "Sui" "tx1" SENDING "" s
  = (Return "suitx1", log_call (c_sui_signAndSend "tx1" Sample.MetaMask) s).
Proof.
  exact (signAndSendTransaction_dispatch Sample.config Sample.calm "Sui"
           "tx1" SENDING "" (Sample.world (Some Sample.MetaMask) None ∅)
           Sample.Sui eq_refl).
Defined.

Lemma connectLastUsedWallet_outcome_sample :
  connectLastUsedWallet Sample.config Sample.refusing SENDING "Ethereum"
    (Sample.world None None ∅)
  = (Return tt, Sample.world None None ∅)
  /\ fst (connectLastUsedWallet Sample.config Sample.refusing SENDING
            "Ethereum"
            (Sample.world None None
               {[ "wormhole-connect:wallet:Ethereum" := "MetaMask" ]}))
     = Throw (Error "User rejected the request")
  /\ connectLastUsedWallet Sample.config Sample.refusing SENDING "Ethereum"
       (Sample.world None None
          {[ "wormhole-connect:wallet:Ethereum" := "Phantom" ]})
     = (Return tt,
        log_call (c_fetch_wallets evm_wallets)
          (Sample.world None None
             {[ "wormhole-connect:wallet:Ethereum" := "Phantom" ]})).
Proof.
  split; [|split].
  - apply (proj1 (connectLastUsedWallet_outcome Sample.config Sample.refusing
                    SENDING "Ethereum" Sample.Ethereum
                    (Sample.world None None ∅) eq_refl)).
    left. reflexivity.
  - eapply (proj1 (proj2 (connectLastUsedWallet_outcome Sample.config
                            Sample.refusing SENDING "Ethereum"
                            Sample.Ethereum
                            (Sample.world None None
                               {[ "wormhole-connect:wallet:Ethereum"
                                  := "MetaMask" ]})
                            eq_refl))
              "MetaMask").
    + reflexivity.
    + discriminate.
    + discriminate.
    + reflexivity.
    + reflexivity.
    + reflexivity.
  - eapply (proj1 (proj2 (proj2 (proj2
              (connectLastUsedWallet_outcome Sample.config Sample.refusing
                 SENDING "Ethereum" Sample.Ethereum
                 (Sample.world None None
                    {[ "wormhole-connect:wallet:Ethereum" := "Phantom" ]})
                 eq_refl))))
              "Phantom").
    + reflexivity.
    + discriminate.
    + discriminate.
    + reflexivity.
    + reflexivity.
Defined.


Lemma resolve_twice_one_lookup_sample :
  let first := getTokenBridgeWrappedTokenAddress Sample.config Sample.calm
                 Sample.USDC "Sui" (Sample.world None None ∅) in
  let second := getTokenBridgeWrappedTokenAddress Sample.config Sample.calm
                  Sample.USDC "Sui" (snd first) in
  fst first = Return (Some (NativeAddress "0xwrapped"))
  /\ fst second = Return (Some (NativeAddress "0xwrapped"))
  /\ snd second = snd first
  /\ live_lookups (snd second) = 1%nat.
Proof.
  apply (resolve_twice_one_lookup Sample.config Sample.calm Sample.USDC "Sui"
           (Sample.world None None ∅) (NativeAddress "0xwrapped")).
  - reflexivity.
  - split; reflexivity.
  - reflexivity.
Defined.

Lemma failed_lookup_not_cached_sample :
  let s := Sample.world None None ∅ in
  let s1 := snd (getTokenBridgeWrappedTokenAddress Sample.config Sample.down
                   Sample.USDC "Sui" s) in
  fst (getTokenBridgeWrappedTokenAddress Sample.config Sample.down
         Sample.USDC "Sui" s) = Return None
  /\ wrappedTokenAddressCache s1 = wrappedTokenAddressCache s
  /\ calls (snd (getTokenBridgeWrappedTokenAddress Sample.config Sample.down
                   Sample.USDC "Sui" s1))
     = c_getWrappedAsset "Sui" (toTokenIdV2 Sample.config Sample.USDC)
       :: c_getTokenBridge "Sui" :: c_getWormholeContextV2 :: calls s1.
Proof.
  destruct (proj2 (failed_lookup_not_cached Sample.config Sample.down
                     Sample.USDC "Sui" (Sample.world None None ∅))
              eq_refl (conj eq_refl eq_refl)
              (or_intror (ex_intro _ (Error "rpc unreachable") eq_refl)))
    as [Hnone [Hcache Hagain]].
  split; [exact Hnone|].
  split; [exact Hcache|].
  exact (Hagain (conj eq_refl eq_refl)).
Defined.

Lemma parseReceipt_sendTx_sample :
  parseReceipt Sample.config Sample.calm "ManualTokenBridge"
    Sample.receipt_without_origin (Sample.world None None ∅)
  = (Throw (Error "Can't find txid in receipt"), Sample.world None None ∅)
  /\ sendTx Sample.weth_info = "0xlast".
Proof.
  split.
  - apply (proj1 (parseReceipt_sendTx Sample.config Sample.calm
                    "ManualTokenBridge" Sample.receipt_without_origin
                    (Sample.world None None ∅) (or_introl eq_refl))).
    right. reflexivity.
  - apply (proj2 (parseReceipt_sendTx Sample.config Sample.calm
                    "ManualTokenBridge" (Sample.receipt "0xc02a" 123456789)
                    (Sample.world None None ∅) (or_introl eq_refl))
             [ {| tx_chain := "Ethereum"; txid := "0xfirst" |};
               {| tx_chain := "Ethereum"; txid := "0xlast" |} ]
             {| tx_chain := "Ethereum"; txid := "0xlast" |}
             Sample.weth_info
             (snd (parseReceipt Sample.config Sample.calm "ManualTokenBridge"
                     (Sample.receipt "0xc02a" 123456789)
                     (Sample.world None None ∅)))).
    + reflexivity.
    + reflexivity.
    + vm_compute. reflexivity.
Defined.

Lemma token_bridge_amount_precision_sample :
  exists payload token,
    r_attestation (Sample.receipt "0xc02a" 123456789) = TransferVAA payload
    /\ p_token payload = Some token
    /\ amount Sample.weth_info
       = amount_display Sample.config (Z_toString (tt_amount token))
           (Z.min 8 (tokenDecimals Sample.weth_info)).
Proof.
  apply (proj1 token_bridge_amount_precision Sample.config Sample.calm
           (Sample.receipt "0xc02a" 123456789) (Sample.world None None ∅)
           Sample.weth_info
           (snd (parseReceipt Sample.config Sample.calm "ManualTokenBridge"
                   (Sample.receipt "0xc02a" 123456789)
                   (Sample.world None None ∅)))).
  vm_compute. reflexivity.
Defined.

(** * Further properties *)

Local Open Scope list_scope.

(** ** Wallet options: [mapWallets] and [getWalletOptions] *)

Lemma findIndex_name_app (name : string) (pre l : list Wallet) :
  findIndex_name name (pre ++ l)
  = match findIndex_name name pre with
    | Some i => Some i
    | None => option_map (Nat.add (length pre)) (findIndex_name name l)
    end.
Proof.
  induction pre as [|o pre IH]; simpl.
  - destruct (findIndex_name name l); reflexivity.
  - destruct (String.eqb (getName o) name); [reflexivity|].
    rewrite IH. destruct (findIndex_name name pre); simpl; [reflexivity|].
    destruct (findIndex_name name l); reflexivity.
Qed.

Lemma findIndex_name_Some (name : string) (l : list Wallet) (i : nat) :
  findIndex_name name l = Some i ->
  (i < length l)%nat /\ name ∈ names l.
Proof.
  revert i. induction l as [|o l IH]; simpl; intros i H; [discriminate|].
  destruct (String.eqb (getName o) name) eqn:E.
  - injection H as <-. split; [lia|].
    apply String.eqb_eq in E. rewrite <- E. apply list_elem_of_here.
  - destruct (findIndex_name name l) as [j|]; [|discriminate].
    injection H as <-. destruct (IH j eq_refl) as [Hlt Hin].
    split; [lia|]. apply list_elem_of_further, Hin.
Qed.

Lemma findIndex_name_None (name : string) (l : list Wallet) :
  findIndex_name name l = None -> name ∉ names l.
Proof.
  induction l as [|o l IH]; simpl; intros H Hin.
  - inversion Hin.
  - destruct (String.eqb (getName o) name) eqn:E; [discriminate|].
    destruct (findIndex_name name l); [discriminate|].
    apply String.eqb_neq in E.
    apply elem_of_cons in Hin as [Hin | Hin]; [congruence|].
    exact (IH eq_refl Hin).
Qed.

Lemma keep_first_by_name_cons (pre rest : list Wallet) (w : Wallet) :
  keep_first_by_name (pre ++ w :: rest) (length pre) (w :: rest)
  = if decide (getName w ∈ names pre)
    then keep_first_by_name ((pre ++ [w]) ++ rest) (length (pre ++ [w])) rest
    else w :: keep_first_by_name ((pre ++ [w]) ++ rest)
                (length (pre ++ [w])) rest.
Proof.
  assert (Eself : pre ++ w :: rest = (pre ++ [w]) ++ rest)
    by (rewrite <- app_assoc; reflexivity).
  assert (Elen : length (pre ++ [w]) = S (length pre))
    by (rewrite length_app; simpl; lia).
  rewrite Elen, <- Eself. simpl.
  rewrite findIndex_name_app. simpl. rewrite String.eqb_refl. simpl.
  destruct (findIndex_name (getName w) pre) as [i|] eqn:Ei.
  - destruct (findIndex_name_Some _ _ _ Ei) as [Hlt Hin].
    rewrite decide_True by exact Hin.
    replace (Nat.eqb (length pre) i) with false
      by (symmetry; apply Nat.eqb_neq; lia).
    reflexivity.
  - rewrite decide_False by exact (findIndex_name_None _ _ Ei).
    replace (Nat.eqb (length pre) (length pre + 0)) with true
      by (symmetry; apply Nat.eqb_eq; lia).
    reflexivity.
Qed.

(** What [filter] with [findIndex] keeps of a suffix [l] of the list
    [pre ++ l]: one wallet per name that is new to [pre], the first of
    that name. *)
Lemma keep_first_by_name_spec (l pre : list Wallet) :
  let kept := keep_first_by_name (pre ++ l) (length pre) l in
  NoDup (names kept)
  /\ (forall n, n ∈ names kept <-> n ∈ names l /\ n ∉ names pre)
  /\ (forall w, w ∈ kept ->
        find (fun o => String.eqb (getName o) (getName w)) (pre ++ l)
        = Some w).
Proof.
  revert pre. induction l as [|w rest IH]; intros pre; cbn zeta.
  - simpl. split; [constructor|]. split.
    + intros n. split; [intros H; inversion H | intros [H _]; inversion H].
    + intros w H. inversion H.
  - assert (Eself : pre ++ w :: rest = (pre ++ [w]) ++ rest)
      by (rewrite <- app_assoc; reflexivity).
    assert (Hpre : forall n, (n ∉ names (pre ++ [w]))
                             <-> (n ∉ names pre) /\ n <> getName w).
    { intros n. unfold names. rewrite fmap_app. simpl.
      rewrite not_elem_of_app, not_elem_of_cons. split.
      - intros [H1 [H2 _]]. auto.
      - intros [H1 H2]. repeat split; auto. intros H; inversion H. }
    rewrite keep_first_by_name_cons.
    specialize (IH (pre ++ [w])). cbn zeta in IH.
    destruct IH as (IHnd & IHin & IHfirst).
    set (tail := keep_first_by_name ((pre ++ [w]) ++ rest)
                   (length (pre ++ [w])) rest) in *.
    destruct (decide (getName w ∈ names pre)) as [Hold | Hnew].
    + split; [exact IHnd|]. split.
      * intros n. rewrite IHin, Hpre. unfold names at 2. simpl.
        rewrite elem_of_cons. split.
        -- intros (H1 & H2 & H3). auto.
        -- intros ([H1 | H1] & H2); [subst n; contradiction|].
           repeat split; auto. intros ->. contradiction.
      * intros w' Hw'. rewrite Eself. apply IHfirst, Hw'.
    + split; [|split].
      * unfold names. simpl. constructor; [|exact IHnd].
        intros Hin. apply IHin in Hin as [_ Hin].
        apply Hpre in Hin as [_ Hin]. congruence.
      * intros n. unfold names at 1 2. simpl.
        rewrite !elem_of_cons. fold (names tail) (names rest).
        rewrite IHin, Hpre. split.
        -- intros [-> | (H1 & H2 & H3)]; auto.
        -- intros ([-> | H1] & H2); [auto|].
           destruct (String.eqb_spec n (getName w)) as [-> | Hne]; auto.
      * intros w' Hw'. apply elem_of_cons in Hw' as [-> | Hw'].
        -- clear -Hnew. induction pre as [|o pre IHp]; simpl.
           ++ rewrite String.eqb_refl. reflexivity.
           ++ unfold names in Hnew. simpl in Hnew.
              apply not_elem_of_cons in Hnew as [Hne Hnew].
              destruct (String.eqb_spec (getName o) (getName w));
                [congruence|].
              apply IHp, Hnew.
        -- rewrite Eself. apply IHfirst, Hw'.
Qed.

Lemma includes_elem_of (skip : list string) (name : string) :
  includes skip name = true <-> name ∈ skip.
Proof.
  unfold includes. rewrite existsb_exists. split.
  - intros (x & Hin & Heq). apply String.eqb_eq in Heq. subst x.
    apply list_elem_of_In, Hin.
  - intros Hin. exists name. split; [apply list_elem_of_In, Hin|].
    apply String.eqb_refl.
Qed.

Lemma mapWallets_names_eq (wallets : list Wallet) (type : Context)
    (skip : list string) :
  map wd_name (mapWallets wallets type skip)
  = names (filter (fun w => negb (includes skip (getName w)))
             (keep_first_by_name wallets 0 wallets)).
Proof.
  unfold mapWallets, names. rewrite map_map. reflexivity.
Qed.

Lemma mapWallets_offered (wallets : list Wallet) (type : Context)
    (skip : list string) :
  NoDup (map wd_name (mapWallets wallets type skip))
  /\ (forall n, n ∈ map wd_name (mapWallets wallets type skip)
                <-> n ∈ names wallets /\ n ∉ skip).
Proof.
  rewrite mapWallets_names_eq.
  destruct (keep_first_by_name_spec wallets []) as (Hnd & Hin & _).
  simpl in Hnd, Hin.
  set (kept := keep_first_by_name wallets 0 wallets) in *.
  assert (Hfilter : forall n,
             n ∈ names (filter (fun w => negb (includes skip (getName w)))
                               kept)
             <-> n ∈ names kept /\ n ∉ skip).
  { intros n. unfold names. rewrite !list_elem_of_fmap. split.
    - intros (w & -> & Hw). apply list_elem_of_filter in Hw as [Hskip Hw].
      split; [exists w; auto|].
      intros Hn. apply includes_elem_of in Hn.
      rewrite Hn in Hskip. exact Hskip.
    - intros [(w & -> & Hw) Hn]. exists w. split; [reflexivity|].
      apply list_elem_of_filter. split; [|exact Hw].
      destruct (includes skip (getName w)) eqn:E; [|exact I].
      apply includes_elem_of in E. contradiction. }
  split.
  - unfold names in *. clear Hin Hfilter.
    induction kept as [|w kept IH]; [constructor|].
    simpl in Hnd. inversion Hnd as [|? ? Hnot Hrest]; subst.
    rewrite filter_cons. destruct (decide _); [|apply IH, Hrest].
    simpl. constructor; [|apply IH, Hrest].
    intros Hin. apply Hnot.
    apply list_elem_of_fmap in Hin as (w' & Heq & Hw').
    apply list_elem_of_filter in Hw' as [_ Hw'].
    apply list_elem_of_fmap. exists w'. auto.
  - intros n. rewrite Hfilter, Hin. split.
    + intros [[H1 _] H2]. auto.
    + intros [H1 H2]. repeat split; auto. intros H; inversion H.
Qed.

(** X1.  The options [mapWallets] makes carry pairwise distinct names, and
    a name is offered exactly when some wallet of the input has it and it
    is not in the skip list. *)
Theorem mapWallets_names (wallets : list Wallet) (type : Context)
    (skip : list string) :
  NoDup (map wd_name (mapWallets wallets type skip))
  /\ (forall n, n ∈ map wd_name (mapWallets wallets type skip)
                <-> n ∈ names wallets /\ n ∉ skip).
Proof.
  destruct (mapWallets_offered wallets type skip) as [Hdistinct Hoffered].
  split.
  - exact Hdistinct.
  - intros n. apply Hoffered.
Qed.

(** X2.  Each option holds the first wallet of the input that has the
    option's name, with the requested type and that wallet's icon and
    readiness. *)
Theorem mapWallets_first_of_name (wallets : list Wallet) (type : Context)
    (skip : list string) :
  Forall (fun wd =>
            find (fun o => String.eqb (getName o) (wd_name wd)) wallets
            = Some (wd_wallet wd)
            /\ wd_type wd = type
            /\ wd_icon wd = getIcon (wd_wallet wd)
            /\ wd_isReady wd = getReady (wd_wallet wd))
         (mapWallets wallets type skip).
Proof.
  destruct (keep_first_by_name_spec wallets []) as (_ & _ & Hfirst).
  simpl in Hfirst.
  unfold mapWallets. apply Forall_forall. intros wd Hwd.
  apply list_elem_of_fmap in Hwd as (w & -> & Hw).
  apply list_elem_of_filter in Hw as [_ Hw]. simpl.
  repeat split. apply Hfirst, Hw.
Qed.

Lemma mapWallets_type (wallets : list Wallet) (type : Context)
    (skip : list string) :
  Forall (fun wd => wd_type wd = type) (mapWallets wallets type skip).
Proof.
  unfold mapWallets. apply Forall_forall. intros wd Hwd.
  apply list_elem_of_fmap in Hwd as (w & -> & _). reflexivity.
Qed.

Lemma only_logs_request (c : Call) (s : World) : only_logs s (log_call c s).
Proof.
  repeat split. exists [c]. reflexivity.
Qed.

Lemma only_logs_refl (s : World) : only_logs s s.
Proof.
  repeat split. exists []. reflexivity.
Qed.

Lemma only_logs_trans (s s1 s2 : World) :
  only_logs s s1 -> only_logs s1 s2 -> only_logs s s2.
Proof.
  intros (A1 & B1 & C1 & [n1 D1]) (A2 & B2 & C2 & [n2 D2]).
  repeat split; try congruence.
  exists (n2 ++ n1). rewrite D2, D1, app_assoc. reflexivity.
Qed.

Section WalletOptions.
Variable config : Config.
Variable out : Outside.

(** X3.  Whatever [getWalletOptions] returns for a chain: the options
    have pairwise distinct names and all carry the chain's context; for
    the Cosmos chains Evmos and Injective none of them is "OKX Wallet";
    and producing them takes at most one request and touches nothing but
    the log. *)
Theorem getWalletOptions_offer (cfg : option ChainConfig) (s s1 : World)
    (options : list WalletData) :
  getWalletOptions out cfg s = (Return options, s1) ->
  NoDup (map wd_name options)
  /\ Forall (fun wd => Some (wd_type wd) = cc_context <$> cfg) options
  /\ (forall c, cfg = Some c -> cc_context c = COSMOS ->
        cc_key c = "Evmos" \/ cc_key c = "Injective" ->
        "OKX Wallet" ∉ map wd_name options)
  /\ only_logs s s1
  /\ (length (calls s1) <= S (length (calls s)))%nat.
Proof.
  intros H.
  assert (Hmap : forall src type skip,
             (cc_context <$> cfg) = Some type ->
             (forall c, cfg = Some c -> cc_context c = COSMOS ->
                cc_key c = "Evmos" \/ cc_key c = "Injective" ->
                "OKX Wallet" ∈ skip) ->
             (do wallets <- load_wallets out src ;;
              ret (mapWallets wallets type skip)) s
             = (Return options, s1) ->
             NoDup (map wd_name options)
             /\ Forall (fun wd => Some (wd_type wd) = cc_context <$> cfg)
                  options
             /\ (forall c, cfg = Some c -> cc_context c = COSMOS ->
                   cc_key c = "Evmos" \/ cc_key c = "Injective" ->
                   "OKX Wallet" ∉ map wd_name options)
             /\ only_logs s s1
             /\ (length (calls s1) <= S (length (calls s)))%nat).
  { intros src type skip Hty Hskip Hrun.
    unfold bind, load_wallets, request, ret in Hrun.
    destruct (fetch_wallets out (calls s) src) as [wallets|e];
      [|discriminate Hrun].
    injection Hrun as <- <-.
    destruct (mapWallets_offered wallets type skip) as [Hnd Hin].
    split; [exact Hnd|]. split.
    - rewrite Hty. eapply Forall_impl; [apply mapWallets_type|].
      intros wd ->. reflexivity.
    - split.
      + intros c Hc Hctx Hkey Hoffer. apply Hin in Hoffer as [_ Hno].
        apply Hno. eapply Hskip; eauto.
      + split; [apply only_logs_request | simpl; lia]. }
  destruct cfg as [c|]; simpl in H.
  - destruct (cc_context c) eqn:Hctx.
    1-5: eapply Hmap; [simpl; rewrite Hctx; reflexivity | | exact H];
         intros c' Hc' Hcosmos; injection Hc' as <-; congruence.
    + destruct (String.eqb_spec (cc_key c) "Evmos") as [Hk | Hk].
      * eapply Hmap; [simpl; rewrite Hctx; reflexivity | | exact H].
        intros. apply list_elem_of_here.
      * destruct (String.eqb_spec (cc_key c) "Injective") as [Hk' | Hk'].
        -- eapply Hmap; [simpl; rewrite Hctx; reflexivity | | exact H].
           intros. apply list_elem_of_here.
        -- eapply Hmap; [simpl; rewrite Hctx; reflexivity | | exact H].
           intros c' Hc' _ [Hkey | Hkey]; injection Hc' as <-;
             contradiction.
    + injection H as <- <-. repeat split; try constructor.
      * intros c' Hc' Hcosmos. injection Hc' as <-. congruence.
      * exists []. reflexivity.
      * lia.
  - injection H as <- <-. repeat split; try constructor.
    + intros c' Hc'. discriminate Hc'.
    + exists []. reflexivity.
    + lia.
Qed.

(** X4.  Whatever happens in [connectWallet], the role ends up bound to
    the wallet, the other role and the address cache are as before, and
    the marker is written exactly on success: after an error the storage
    is unchanged, after a normal return the chain is a configured one and
    its context's marker is the wallet's name. *)
Theorem connectWallet_effects (type : TransferWallet) (chain : Chain)
    (walletInfo : WalletData) (s : World) :
  let r := connectWallet config out type chain walletInfo s in
  binding (walletConnection (snd r)) type = Some (wd_wallet walletInfo)
  /\ binding (walletConnection (snd r)) (other type)
     = binding (walletConnection s) (other type)
  /\ wrappedTokenAddressCache (snd r) = wrappedTokenAddressCache s
  /\ log_grows s (snd r)
  /\ match fst r with
     | Return _ =>
       exists cc,
         chains config chain = Some cc
         /\ localStorage (snd r)
            = <[storage_key config (cc_context cc) := wd_name walletInfo]>
                (localStorage s)
     | Throw _ => localStorage (snd r) = localStorage s
     end.
Proof.
  unfold connectWallet, bind, setWalletConnection, modify, request, observe.
  cbn zeta. cbn [fst snd].
  destruct (chains config chain) as [cc|] eqn:Hcc.
  - cbn. destruct (wallet_connect out (calls s) _ _) as [[]|e]; cbn.
    + destruct type; repeat split; try reflexivity.
      * eexists [_; _; _; _; _]. reflexivity.
      * exists cc. split; reflexivity.
      * eexists [_; _; _; _; _]. reflexivity.
      * exists cc. split; reflexivity.
    + destruct type; repeat split; try reflexivity;
        eexists [_]; reflexivity.
  - cbn. destruct type; repeat split; try reflexivity;
      exists []; reflexivity.
Qed.

(** X5.  Markers are kept per context, not per chain: after a successful
    [connectWallet] on one chain, every chain of the same context finds
    the wallet's name as its marker; and when that name is
    "WalletConnect", restoring on such a chain requests nothing and
    changes nothing. *)
Theorem connect_then_restore (type type2 : TransferWallet)
    (chain chain2 : Chain) (cc cc2 : ChainConfig) (walletInfo : WalletData)
    (s s1 : World) :
  chains config chain = Some cc ->
  chains config chain2 = Some cc2 ->
  cc_context cc2 = cc_context cc ->
  connectWallet config out type chain walletInfo s = (Return tt, s1) ->
  localStorage s1 !! storage_key config (cc_context cc2)
  = Some (wd_name walletInfo)
  /\ (wd_name walletInfo = "WalletConnect" ->
      connectLastUsedWallet config out type2 chain2 s1 = (Return tt, s1)).
Proof.
  intros Hcc Hcc2 Hctx Hrun.
  assert (Hls : localStorage s1
                = <[storage_key config (cc_context cc) := wd_name walletInfo]>
                    (localStorage s)).
  { unfold connectWallet, bind, setWalletConnection, modify, request,
      observe in Hrun.
    rewrite Hcc in Hrun. cbn in Hrun.
    destruct (wallet_connect out (calls s) _ _) as [[]|e]; cbn in Hrun;
      [|discriminate Hrun].
    injection Hrun as <-. reflexivity. }
  assert (Hmarker : localStorage s1 !! storage_key config (cc_context cc2)
                    = Some (wd_name walletInfo)).
  { rewrite Hls, Hctx. apply lookup_insert_eq. }
  split; [exact Hmarker|].
  intros Hname.
  unfold connectLastUsedWallet, bind, gets.
  rewrite Hcc2, Hmarker, Hname. reflexivity.
Qed.

End WalletOptions.

(** ** Chain dispatcher *)

Section Dispatcher.
Variable config : Config.
Variable out : Outside.

(** X6.  Away from the requested chain, on a known chain id:
    [switchChain] calls the EVM adapter for an EVM chain and the Cosmos
    adapter for a Cosmos chain, and when the adapter succeeds returns the
    address the wallet reports after the switch; for any other context it
    calls no adapter and returns the wallet's address. *)
Theorem switchChain_switches (chainId : ChainId) (type : TransferWallet)
    (s : World) (w : Wallet) (cfg : ChainConfig) :
  binding (walletConnection s) type = Some w ->
  getNetworkInfo_chainId out (calls s) w <> chainId ->
  getChainByChainId config chainId = Some cfg ->
  match cc_context cfg with
  | ETH =>
    evm_switchChain out (calls s) w chainId = Return tt ->
    switchChain config out chainId type s
    = (Return (getAddress out (c_evm_switchChain w chainId :: calls s) w),
       log_call (c_evm_switchChain w chainId) s)
  | COSMOS =>
    cosmos_switchChain out (calls s) w chainId = Return tt ->
    switchChain config out chainId type s
    = (Return (getAddress out (c_cosmos_switchChain w chainId :: calls s) w),
       log_call (c_cosmos_switchChain w chainId) s)
  | _ =>
    switchChain config out chainId type s
    = (Return (getAddress out (calls s) w), s)
  end.
Proof.
  intros Hw Hc Hcfg. apply ChainId_eqb_neq in Hc.
  unfold switchChain, getWalletConnection, bind, gets, observe, try_catch,
    request.
  rewrite Hw. cbn. rewrite Hc, Hcfg.
  destruct (cc_context cfg); cbn; try reflexivity; intros ->; reflexivity.
Qed.

(** X7.  [switchChain] checks the role before anything else: without a
    wallet it throws "must connect wallet", also for a chain id that no
    chain has.  With a wallet that is elsewhere, a chain id that no chain
    has ends in a [TypeError].  Neither case makes a request. *)
Theorem switchChain_missing (chainId : ChainId) (type : TransferWallet)
    (s : World) :
  match binding (walletConnection s) type with
  | None =>
    switchChain config out chainId type s
    = (Throw (Error "must connect wallet"), s)
  | Some w =>
    getChainByChainId config chainId = None ->
    switchChain config out chainId type s
    = (if ChainId_eqb (getNetworkInfo_chainId out (calls s) w) chainId
       then Return None else Throw TypeError, s)
  end.
Proof.
  unfold switchChain, getWalletConnection, bind, gets, observe.
  destruct (binding (walletConnection s) type) as [w|]; [|reflexivity].
  intros Hcfg. cbn. rewrite Hcfg.
  destruct (ChainId_eqb _ chainId); reflexivity.
Qed.

(** X8.  Neither [switchChain] nor [signAndSendTransaction] ever changes
    a role binding, the stored markers or the address cache; each makes
    at most one request. *)
Theorem dispatcher_frame (chainId : ChainId) (chain : Chain)
    (req : UnsignedTransaction) (options : SendOptions)
    (type : TransferWallet) (s : World) :
  let s1 := snd (switchChain config out chainId type s) in
  let s2 := snd (signAndSendTransaction config out chain req type options s)
  in
  only_logs s s1 /\ (length (calls s1) <= S (length (calls s)))%nat
  /\ only_logs s s2 /\ (length (calls s2) <= S (length (calls s)))%nat.
Proof.
  cbn zeta. split; [|split; [|split]].
  1, 2: unfold switchChain, getWalletConnection, bind, gets, observe,
          try_catch, request;
        destruct (binding (walletConnection s) type) as [w|]; cbn;
          [|first [apply only_logs_refl | lia]];
        destruct (ChainId_eqb _ chainId); cbn;
          [first [apply only_logs_refl | lia]|];
        destruct (getChainByChainId config chainId) as [cfg|]; cbn;
          [|first [apply only_logs_refl | lia]];
        destruct (cc_context cfg); cbn;
          try (destruct (evm_switchChain out (calls s) w chainId)
                 as [[]|[]]; cbn);
          try (destruct (cosmos_switchChain out (calls s) w chainId)
                 as [[]|[]]; cbn);
          first [apply only_logs_refl | apply only_logs_request | lia].
  1, 2: unfold signAndSendTransaction, getWalletConnection, bind, gets,
          request;
        destruct (binding (walletConnection s) type) as [w|]; cbn;
          [|first [apply only_logs_refl | lia]];
        destruct (chains config chain) as [cc|]; cbn;
          [|first [apply only_logs_refl | lia]];
        destruct (cc_context cc); cbn;
          try (destruct (sui_signAndSendTransaction out (calls s) req w);
               cbn);
          try (destruct (aptos_signAndSendTransaction out (calls s) req w);
               cbn);
          first [apply only_logs_refl | apply only_logs_request | lia].
Qed.

End Dispatcher.

(** ** Wrapped-token resolver *)

Section ResolverMore.
Variable config : Config.
Variable out : Outside.

Local Abbreviation resolve := (getTokenBridgeWrappedTokenAddress config out).
Local Abbreviation resolveSync := getTokenBridgeWrappedTokenAddressSync.

(** How a resolve ends, in every case. *)
Lemma resolve_cases (token : TokenConfig) (chain : Chain) (s : World) :
  (exists a,
     wrappedTokenAddressCache s !! (tk_key token, chain) = Some a
     /\ resolve token chain s = (Return (Some a), s))
  \/ (wrappedTokenAddressCache s !! (tk_key token, chain) = None
      /\ ((exists e,
             getWormholeContextV2 out (calls s) = Throw e
             /\ resolve token chain s
                = (Throw e, log_call c_getWormholeContextV2 s))
          \/ (exists e,
                getWormholeContextV2 out (calls s) = Return tt
                /\ getTokenBridge out (c_getWormholeContextV2 :: calls s)
                     chain = Throw e
                /\ resolve token chain s
                   = (Throw e,
                      log_call (c_getTokenBridge chain)
                        (log_call c_getWormholeContextV2 s)))
          \/ (bridge_reachable out chain s
              /\ ((exists a,
                     live_answer config out token chain s = Return (Some a)
                     /\ resolve token chain s
                        = (Return (Some a),
                           set_cache
                             (<[(tk_key token, chain) := a]>
                                (wrappedTokenAddressCache s))
                             (after_lookup config token chain s)))
                  \/ resolve token chain s
                     = (Return None, after_lookup config token chain s))))).
Proof.
  destruct (wrappedTokenAddressCache s !! (tk_key token, chain)) as [a|]
    eqn:Hcache.
  - left. exists a. split; [reflexivity|]. apply resolve_hit, Hcache.
  - right. split; [reflexivity|].
    destruct (getWormholeContextV2 out (calls s)) as [[]|e] eqn:Hctx.
    + destruct (getTokenBridge out (c_getWormholeContextV2 :: calls s) chain)
        as [[]|e] eqn:Hbridge.
      * right. right.
        assert (Hreach : bridge_reachable out chain s) by (split; assumption).
        split; [exact Hreach|].
        rewrite (resolve_miss config out token chain s Hcache Hreach).
        destruct (live_answer config out token chain s) as [[a|]|e];
          [left; exists a; split; reflexivity | right; reflexivity ..].
      * right. left. exists e. repeat split.
        unfold getTokenBridgeWrappedTokenAddress, bind,
          wrappedTokenAddressCache_get, gets, request.
        rewrite Hcache. cbn. rewrite Hctx. cbn. rewrite Hbridge. reflexivity.
    + left. exists e. split; [reflexivity|].
      unfold getTokenBridgeWrappedTokenAddress, bind,
        wrappedTokenAddressCache_get, gets, request.
      rewrite Hcache. cbn. rewrite Hctx. reflexivity.
Qed.

(** X9.  The synchronous resolver never makes a request or changes
    anything, and it agrees with the asynchronous one: an address the
    asynchronous resolver returns is what the synchronous one returns
    right after, and an address the synchronous one returns is returned by
    the asynchronous one without any request. *)
Theorem resolveSync_agrees (token : TokenConfig) (chain : Chain)
    (s : World) (a : TokenAddress) :
  snd (resolveSync token chain s) = s
  /\ (fst (resolve token chain s) = Return (Some a) ->
      resolveSync token chain (snd (resolve token chain s))
      = (Return (Some a), snd (resolve token chain s)))
  /\ (fst (resolveSync token chain s) = Return (Some a) ->
      resolve token chain s = (Return (Some a), s)).
Proof.
  split; [reflexivity|]. split.
  - intros H.
    unfold getTokenBridgeWrappedTokenAddressSync,
      wrappedTokenAddressCache_get, gets. f_equal.
    destruct (resolve_cases token chain s)
      as [(a' & Hc & E) | (Hc & [(e & _ & E) | [(e & _ & _ & E)
            | (_ & [(a' & _ & E) | E])]])];
      rewrite E in H |- *; cbn in H |- *; try discriminate H.
    + rewrite Hc. exact H.
    + injection H as ->. rewrite lookup_insert_eq. reflexivity.
  - intros H.
    unfold getTokenBridgeWrappedTokenAddressSync,
      wrappedTokenAddressCache_get, gets in H. cbn in H.
    injection H as H. apply resolve_hit, H.
Qed.

(** X10.  A resolve never removes or replaces a cached address, of any
    token and chain, and never touches the role bindings or the stored
    markers. *)
Theorem resolve_keeps_cache (token : TokenConfig) (chain : Chain)
    (s : World) (key : string) (c : Chain) (a : TokenAddress) :
  let s1 := snd (resolve token chain s) in
  (wrappedTokenAddressCache s !! (key, c) = Some a ->
   wrappedTokenAddressCache s1 !! (key, c) = Some a)
  /\ walletConnection s1 = walletConnection s
  /\ localStorage s1 = localStorage s
  /\ log_grows s s1.
Proof.
  cbn zeta.
  destruct (resolve_cases token chain s)
    as [(a' & Hc & E) | (Hc & [(e & _ & E) | [(e & _ & _ & E)
          | (_ & [(a' & _ & E) | E])]])];
    rewrite E; cbn [snd]; (split; [|split; [|split]]);
    try reflexivity; try (intros H; exact H).
  - exists []. reflexivity.
  - exists [c_getWormholeContextV2]. reflexivity.
  - exists [c_getTokenBridge chain; c_getWormholeContextV2]. reflexivity.
  - intros H. cbn.
    destruct (decide ((tk_key token, chain) = (key, c))) as [Heq | Hne].
    + rewrite Heq in Hc. congruence.
    + rewrite lookup_insert_ne by exact Hne. exact H.
  - eexists [_; _; _]. reflexivity.
  - eexists [_; _; _]. reflexivity.
Qed.

(** X11.  On a cache miss, an error while obtaining the bridge client is
    not swallowed: it is thrown to the caller, before any wrapped-asset
    query is made, and the cache stays as it was. *)
Theorem resolve_client_error (token : TokenConfig) (chain : Chain)
    (s : World) (e : Exn) :
  wrappedTokenAddressCache s !! (tk_key token, chain) = None ->
  getWormholeContextV2 out (calls s) = Throw e
  \/ (getWormholeContextV2 out (calls s) = Return tt
      /\ getTokenBridge out (c_getWormholeContextV2 :: calls s) chain
         = Throw e) ->
  fst (resolve token chain s) = Throw e
  /\ live_lookups (snd (resolve token chain s)) = live_lookups s
  /\ wrappedTokenAddressCache (snd (resolve token chain s))
     = wrappedTokenAddressCache s.
Proof.
  intros Hmiss Hfail.
  unfold getTokenBridgeWrappedTokenAddress, bind,
    wrappedTokenAddressCache_get, gets, request.
  rewrite Hmiss. cbn.
  destruct Hfail as [Hctx | [Hctx Hbridge]]; rewrite Hctx; cbn.
  - repeat split.
  - rewrite Hbridge. cbn. repeat split.
Qed.

End ResolverMore.

(** ** Receipt normalizer *)

Section ParseMore.
Variable config : Config.
Variable out : Outside.

(** X12.  A route name other than the four known ones is refused with
    "Unknown route type" followed by the name, for every receipt, before
    the receipt is looked at and without any request. *)
Theorem parseReceipt_unknown_route (route : string) (receipt : Receipt)
    (s : World) :
  route ∉ known_routes ->
  parseReceipt config out route receipt s
  = (Throw (Error ("Unknown route type " +:+ route)), s).
Proof.
  intros Hroute. unfold parseReceipt.
  repeat match goal with
         | |- context [String.eqb route ?r] =>
           destruct (String.eqb_spec route r) as [-> | _];
             [exfalso; apply Hroute; unfold known_routes;
              repeat first [apply list_elem_of_here
                           | apply list_elem_of_further] |]
         end.
  reflexivity.
Qed.

Lemma makes_at_most_ret {A} (n : nat) (a : A) : makes_at_most n (ret a).
Proof.
  intros s. repeat split. exists []. split; [reflexivity | simpl; lia].
Qed.

Lemma makes_at_most_throw {A} (n : nat) (e : Exn) :
  makes_at_most n (@throw A e).
Proof.
  intros s. repeat split. exists []. split; [reflexivity | simpl; lia].
Qed.

Lemma makes_at_most_request {A} (n : nat) (c : Call)
    (oracle : list Call -> Completion A) :
  makes_at_most (S n) (request c oracle).
Proof.
  intros s. repeat split. exists [c]. split; [reflexivity | simpl; lia].
Qed.

Lemma makes_at_most_bind {A B} (n k : nat) (m : M A) (f : A -> M B) :
  makes_at_most n m -> (forall a, makes_at_most k (f a)) ->
  makes_at_most (n + k) (bind m f).
Proof.
  intros Hm Hf s. unfold bind.
  destruct (Hm s) as (A1 & B1 & C1 & new1 & D1 & E1).
  destruct (m s) as [[a|e] s1]; cbn [snd] in *.
  - destruct (Hf a s1) as (A2 & B2 & C2 & new2 & D2 & E2).
    repeat split; try congruence.
    exists (new2 ++ new1). rewrite D2, D1, app_assoc, length_app.
    split; [reflexivity | lia].
  - repeat split; try assumption.
    exists new1. split; [assumption | lia].
Qed.

Lemma makes_at_most_try_catch {A} (n : nat) (m : M A) (h : Exn -> M A) :
  makes_at_most n m -> (forall e, makes_at_most 0 (h e)) ->
  makes_at_most n (try_catch m h).
Proof.
  intros Hm Hh s. unfold try_catch.
  destruct (Hm s) as (A1 & B1 & C1 & new1 & D1 & E1).
  destruct (m s) as [[a|e] s1]; cbn [snd] in *.
  - repeat split; try assumption. exists new1. split; assumption.
  - destruct (Hh e s1) as (A2 & B2 & C2 & new2 & D2 & E2).
    repeat split; try congruence.
    exists (new2 ++ new1). rewrite D2, D1, app_assoc, length_app.
    split; [reflexivity | lia].
Qed.

Lemma makes_at_most_none {A} (m : M A) (s : World) :
  makes_at_most 0 m -> snd (m s) = s.
Proof.
  intros H. destruct (H s) as (A1 & B1 & C1 & newer & D1 & E1).
  destruct newer; [|simpl in E1; lia].
  destruct (snd (m s)), s; simpl in *. congruence.
Qed.

Lemma origin_txid_quiet (n : nat) (receipt : Receipt) :
  makes_at_most n (origin_txid receipt).
Proof.
  unfold origin_txid.
  destruct (r_originTxs receipt) as [txs|]; [|apply makes_at_most_throw].
  destruct (0 <? length txs)%nat; [|apply makes_at_most_throw].
  destruct (txs !! _);
    [apply makes_at_most_ret | apply makes_at_most_throw].
Qed.

Lemma recipient_of_requests (n : nat) (to : Chain) (address : string) :
  makes_at_most (S n) (recipient_of config out to address)
  /\ (to <> "Solana" -> makes_at_most 0 (recipient_of config out to address)).
Proof.
  unfold recipient_of.
  destruct (String.eqb_spec to "Solana") as [-> | Hne].
  - split; [|intros H; contradiction].
    destruct (rpcs_Solana config); [|apply makes_at_most_throw].
    apply makes_at_most_try_catch; [apply makes_at_most_request|].
    intros e. apply makes_at_most_ret.
  - split; intros; apply makes_at_most_ret.
Qed.

Lemma parseTokenBridgeReceipt_requests (receipt : Receipt) :
  makes_at_most 4 (parseTokenBridgeReceipt config out receipt).
Proof.
  unfold parseTokenBridgeReceipt.
  apply (makes_at_most_bind 0 4); [apply origin_txid_quiet|]. intros tx.
  destruct (r_attestation receipt) as [payload| |];
    try apply makes_at_most_throw.
  destruct (p_token payload) as [token|]; [|apply makes_at_most_throw].
  apply (makes_at_most_bind 1 3); [apply makes_at_most_request|]. intros _.
  apply (makes_at_most_bind 1 2); [apply makes_at_most_request|]. intros _.
  apply (makes_at_most_bind 1 1); [apply makes_at_most_request|].
  intros tokenAddress.
  destruct (findTokenConfigV1 config _ _); [|apply makes_at_most_throw].
  apply (makes_at_most_bind 1 0); [|intros r; apply makes_at_most_ret].
  destruct (p_to payload) as [to|]; [|apply makes_at_most_ret].
  apply (makes_at_most_bind 1 0); [|intros r; apply makes_at_most_ret].
  apply recipient_of_requests.
Qed.

Lemma parseCCTPReceipt_requests (receipt : Receipt) :
  makes_at_most 1 (parseCCTPReceipt config out receipt)
  /\ (r_to receipt <> "Solana" ->
      makes_at_most 0 (parseCCTPReceipt config out receipt)).
Proof.
  assert (H : forall n,
             makes_at_most n
               (recipient_of config out (r_to receipt)
                  (match r_attestation receipt with
                   | CircleAttestation (Some p) => mintRecipient p
                   | _ => ""
                   end)) ->
             makes_at_most n (parseCCTPReceipt config out receipt)).
  { intros n Hn. unfold parseCCTPReceipt.
    apply (makes_at_most_bind 0 n); [apply origin_txid_quiet|]. intros tx.
    destruct (r_attestation receipt) as [|[payload|]|];
      try apply makes_at_most_throw.
    destruct (findTokenConfigV1 config _ _); [|apply makes_at_most_throw].
    replace n with (n + 0)%nat by lia.
    apply makes_at_most_bind; [exact Hn|]. intros r.
    destruct (find _ _);
      [apply makes_at_most_ret | apply makes_at_most_throw]. }
  split.
  - apply H, recipient_of_requests.
  - intros Hto. apply H, (proj2 (recipient_of_requests 0 _ _)), Hto.
Qed.

Lemma parseNttReceipt_requests (receipt : Receipt) :
  makes_at_most 0 (parseNttReceipt config receipt).
Proof.
  unfold parseNttReceipt.
  apply (makes_at_most_bind 0 0); [apply origin_txid_quiet|]. intros tx.
  destruct (r_params receipt); [|apply makes_at_most_throw].
  destruct (findTokenConfigV1 config _ _); [|apply makes_at_most_throw].
  destruct (findTokenConfigV1 config _ _); [|apply makes_at_most_throw].
  destruct (r_attestation receipt); try apply makes_at_most_throw.
  destruct (if String.eqb _ _ then _ else _);
    try apply makes_at_most_throw.
  destruct (tk_tokenId _);
    [apply makes_at_most_ret | apply makes_at_most_throw].
Qed.

Lemma makes_at_most_le {A} (n k : nat) (m : M A) :
  (n <= k)%nat -> makes_at_most n m -> makes_at_most k m.
Proof.
  intros Hle H s. destruct (H s) as (A1 & B1 & C1 & newer & D1 & E1).
  repeat split; try assumption. exists newer. split; [assumption | lia].
Qed.

Lemma parseReceipt_requests (route : string) (receipt : Receipt) :
  makes_at_most 4 (parseReceipt config out route receipt)
  /\ (route = "ManualNtt" \/ route = "AutomaticNtt"
      \/ (route = "ManualCCTP" /\ r_to receipt <> "Solana") ->
      makes_at_most 0 (parseReceipt config out route receipt)).
Proof.
  unfold parseReceipt.
  destruct (String.eqb_spec route "ManualTokenBridge") as [-> | _].
  { split; [apply parseTokenBridgeReceipt_requests|].
    intros [H | [H | [H _]]]; discriminate H. }
  destruct (String.eqb_spec route "ManualCCTP") as [-> | _].
  { split.
    - apply (makes_at_most_le 1); [lia | apply parseCCTPReceipt_requests].
    - intros [H | [H | [_ H]]]; try discriminate H.
      apply parseCCTPReceipt_requests, H. }
  destruct (String.eqb_spec route "ManualNtt") as [-> | _].
  { split; intros;
      (apply (makes_at_most_le 0); [lia | apply parseNttReceipt_requests]). }
  destruct (String.eqb_spec route "AutomaticNtt") as [-> | _].
  { split; intros;
      (apply (makes_at_most_le 0); [lia | apply parseNttReceipt_requests]). }
  split; intros; apply makes_at_most_throw.
Qed.

(** X13.  Parsing a receipt never changes a role binding, the stored
    markers or the address cache.  It makes at most four requests; an NTT
    parse makes none, and a CCTP parse makes none unless the destination
    is Solana. *)
Theorem parseReceipt_frame (route : string) (receipt : Receipt)
    (s : World) :
  let s1 := snd (parseReceipt config out route receipt s) in
  only_logs s s1
  /\ (length (calls s1) <= 4 + length (calls s))%nat
  /\ (route = "ManualNtt" \/ route = "AutomaticNtt"
      \/ (route = "ManualCCTP" /\ r_to receipt <> "Solana") ->
      s1 = s).
Proof.
  cbn zeta.
  destruct (parseReceipt_requests route receipt) as [Hall Hquiet].
  destruct (Hall s) as (A1 & B1 & C1 & newer & D1 & E1).
  split; [|split].
  - repeat split; try assumption. exists newer. exact D1.
  - rewrite D1, length_app. lia.
  - intros Hroute. apply makes_at_most_none, Hquiet, Hroute.
Qed.

End ParseMore.

Section ParseFacts.
Variable config : Config.
Variable out : Outside.

(** Case analysis on the innermost scrutinee that blocks the goal. *)
Ltac split_inner :=
  repeat match goal with
         | |- context [match ?x with _ => _ end] =>
           lazymatch x with
           | context [match _ with _ => _ end] => fail
           | _ => destruct x eqn:?; cbn
           end
         end.

Ltac walk_run H :=
  repeat match type of H with
         | context [match ?x with _ => _ end] =>
           destruct x eqn:?; try discriminate H
         end.

(** X14.  An NTT parse that succeeds shows the trimmed amount at the
    decimals the attestation itself declares, reports those decimals as
    the token's, gives the same text as the amount received, and sets no
    relayer fee; the manager payload is read from the top level exactly
    when the attestation is named "WormholeTransfer". *)
Theorem parseNttReceipt_amount (receipt : Receipt) (s s1 : World)
    (info : TransferInfo) :
  parseNttReceipt config receipt s = (Return info, s1) ->
  exists payloadName m,
    r_attestation receipt
    = NttAttestation payloadName
        (if String.eqb payloadName "WormholeTransfer"
         then top_level m else nested m)
    /\ amount info
       = amount_display config (Z_toString (ta_amount (trimmedAmount m)))
           (ta_decimals (trimmedAmount m))
    /\ tokenDecimals info = ta_decimals (trimmedAmount m)
    /\ receiveAmount info = Some (amount info)
    /\ relayerFee info = None
    /\ recipient info
       = Some (toNative config (r_to receipt) (recipientAddress m)).
Proof.
  intros H. unfold parseNttReceipt, bind in H.
  destruct (origin_txid receipt s) as [[tx|e] s0]; [|discriminate H].
  destruct (r_params receipt) as [params|]; [|discriminate H].
  destruct (findTokenConfigV1 config _ _) as [src|]; [|discriminate H].
  destruct (findTokenConfigV1 config _ _) as [dst|]; [|discriminate H].
  destruct (r_attestation receipt) as [| |payloadName shape];
    try discriminate H.
  exists payloadName.
  destruct (String.eqb payloadName "WormholeTransfer");
    destruct shape as [m|m]; try discriminate H;
    destruct (tk_tokenId src); try discriminate H;
    injection H as <- _; exists m; repeat split.
Qed.

(** X15.  The two shapes of an NTT attestation parse alike: a receipt
    named "WormholeTransfer" with the manager payload at the top level
    and the same receipt under another name with the payload nested give
    the same result. *)
Theorem parseNttReceipt_shapes (receipt : Receipt) (payloadName : string)
    (m : NttManagerPayload) (s : World) :
  payloadName <> "WormholeTransfer" ->
  parseNttReceipt config
    (with_attestation receipt (NttAttestation payloadName (nested m))) s
  = parseNttReceipt config
      (with_attestation receipt
         (NttAttestation "WormholeTransfer" (top_level m))) s.
Proof.
  intros Hname. apply String.eqb_neq in Hname.
  unfold parseNttReceipt, bind, origin_txid, with_attestation. cbn.
  rewrite Hname. reflexivity.
Qed.

(** X16.  A CCTP parse that succeeds reports as the token's decimals what
    [getTokenDecimals] gives for the burnt token on the source chain, and
    shows the burnt amount at exactly those decimals, with no cap at 8; it
    gives the same text as the amount received, sets no relayer fee, and
    names as received token a token of the configuration whose symbol is
    USDC and whose native chain is the destination. *)
Theorem parseCCTPReceipt_amount (receipt : Receipt) (s s1 : World)
    (info : TransferInfo) :
  parseReceipt config out "ManualCCTP" receipt s = (Return info, s1) ->
  exists payload usdc dest,
    r_attestation receipt = CircleAttestation (Some payload)
    /\ findTokenConfigV1 config
         {| tid_chain := r_from receipt;
            tid_address := toNative config (r_from receipt)
                             (burnToken payload) |}
         (tokensArr config)
       = Some usdc
    /\ tokenKey info = tk_key usdc
    /\ tokenDecimals info
       = getTokenDecimals config (r_from receipt)
           (getWrappedTokenId config usdc)
    /\ amount info
       = amount_display config (Z_toString (circle_amount payload))
           (getTokenDecimals config (r_from receipt)
              (getWrappedTokenId config usdc))
    /\ amount info
       = amount_display config (Z_toString (circle_amount payload))
           (tokenDecimals info)
    /\ receiveAmount info = Some (amount info)
    /\ relayerFee info = None
    /\ In dest (tokensArr config)
    /\ tk_symbol dest = "USDC"
    /\ tk_nativeChain dest = toChain info
    /\ receivedTokenKey info = tk_key dest.
Proof.
  intros H. change (parseCCTPReceipt config out receipt s = (Return info, s1))
    in H.
  unfold parseCCTPReceipt, bind in H.
  destruct (origin_txid receipt s) as [[tx|e] s0]; [|discriminate H].
  destruct (r_attestation receipt) as [|[payload|]|]; try discriminate H.
  destruct (findTokenConfigV1 config _ _) as [usdc|] eqn:Husdc;
    [|discriminate H].
  destruct (recipient_of config out _ _ s0) as [[r|e] s2];
    [|discriminate H].
  destruct (find _ (tokensArr config)) as [dest|] eqn:Hfind;
    [|discriminate H].
  injection H as <- _.
  apply find_some in Hfind as [Hin Hdest].
  apply andb_prop in Hdest as [Hsym Hchain].
  apply String.eqb_eq in Hsym, Hchain.
  exists payload, usdc, dest.
  split; [reflexivity|]. split; [exact Husdc|].
  repeat split; assumption.
Qed.

(** X17.  The token-account lookup never decides a parse.  Whatever the
    lookup answers or throws, for every route and receipt the parse
    leaves the same world and ends the same way: the same error, or the
    same record but for the recipient. *)
Theorem account_lookup_is_soft
    (lookup : list Call -> string -> Completion string) (route : string)
    (receipt : Receipt) (s : World) :
  let plain := parseReceipt config out route receipt s in
  let varied :=
    parseReceipt config (with_account_lookup out lookup) route receipt s in
  snd varied = snd plain
  /\ Completion_map forget_recipient (fst varied)
     = Completion_map forget_recipient (fst plain).
Proof.
  cbn zeta. unfold parseReceipt.
  destruct (String.eqb route "ManualTokenBridge").
  { unfold parseTokenBridgeReceipt, bind.
    destruct (origin_txid receipt s) as [[tx|e] s0];
      [|split; reflexivity].
    unfold recipient_of, request, try_catch, bind, ret, throw. cbn.
    split_inner; split; reflexivity. }
  destruct (String.eqb route "ManualCCTP").
  { unfold parseCCTPReceipt, bind.
    destruct (origin_txid receipt s) as [[tx|e] s0];
      [|split; reflexivity].
    unfold recipient_of, request, try_catch, bind, ret, throw. cbn.
    split_inner; split; reflexivity. }
  destruct (String.eqb route "ManualNtt"); [split; reflexivity|].
  destruct (String.eqb route "AutomaticNtt"); split; reflexivity.
Qed.

(** X18.  A token-bridge parse that succeeds names the source token also
    as the received one, gives the amount also as the amount received and
    knows no sender; the relayer fee and the native gas amount are set
    exactly when the attestation carries them with a value other than
    zero. *)
Theorem parseTokenBridgeReceipt_extension (receipt : Receipt)
    (s s1 : World) (info : TransferInfo) (payload : TransferPayload) :
  parseReceipt config out "ManualTokenBridge" receipt s = (Return info, s1) ->
  r_attestation receipt = TransferVAA payload ->
  receivedTokenKey info = tokenKey info
  /\ receiveAmount info = Some (amount info)
  /\ sender info = None
  /\ (relayerFee info = None
      <-> truthy (p_payload payload ≫= targetRelayerFee) = None)
  /\ (receiveNativeAmount info = None
      <-> truthy (p_payload payload ≫= toNativeTokenAmount) = None)
  /\ (forall f, relayerFee info = Some f -> fee_tokenKey f = tokenKey info).
Proof.
  intros H Hatt.
  change (parseTokenBridgeReceipt config out receipt s = (Return info, s1))
    in H.
  unfold parseTokenBridgeReceipt, bind in H.
  destruct (origin_txid receipt s) as [[tx|e] s0]; [|discriminate H].
  rewrite Hatt in H.
  destruct (p_token payload) as [token|]; [|discriminate H].
  destruct (request c_getWormholeContextV2 _ s0) as [[[]|e] s2];
    [|discriminate H].
  destruct (request (c_getTokenBridge _) _ s2) as [[[]|e] s3];
    [|discriminate H].
  destruct (request (c_getTokenNativeAddress _ _) _ s3) as [[addr|e] s4];
    [|discriminate H].
  destruct (findTokenConfigV1 config _ _) as [tokenV1|]; [|discriminate H].
  match type of H with
  | context [match ?m s4 with _ => _ end] =>
    destruct (m s4) as [[r|e] s5]; [|discriminate H]
  end.
  injection H as <- _. cbn.
  destruct (truthy (p_payload payload ≫= targetRelayerFee));
    destruct (truthy (p_payload payload ≫= toNativeTokenAmount));
    repeat split; try discriminate; try reflexivity;
    intros f Hf; injection Hf as <-; reflexivity.
Qed.

End ParseFacts.

(** ** Pure helpers of the sources *)

(** X19.  [walletAcceptedChains] with a context lists exactly the keys of
    the chains of that context, in the order of the chain list; what it
    lists is a sublist of what it lists without a context. *)
Theorem walletAcceptedChains_members (chainsArr : list ChainConfig)
    (context : Context) (chain : Chain) :
  (chain ∈ walletAcceptedChains chainsArr (Some context)
   <-> exists c, c ∈ chainsArr /\ cc_key c = chain /\ cc_context c = context)
  /\ sublist (walletAcceptedChains chainsArr (Some context))
       (walletAcceptedChains chainsArr None).
Proof.
  unfold walletAcceptedChains. split.
  - rewrite list_elem_of_fmap. split.
    + intros (c & -> & Hc). apply list_elem_of_filter in Hc as [Hctx Hc].
      exists c. repeat split; [exact Hc|].
      destruct (cc_context c), context; simpl in Hctx;
        first [reflexivity | contradiction].
    + intros (c & Hc & <- & <-). exists c. split; [reflexivity|].
      apply list_elem_of_filter. split; [|exact Hc].
      destruct (cc_context c); exact I.
  - apply (fmap_sublist cc_key), sublist_filter.
Qed.

Lemma string_length_app (s t : string) :
  String.length (s +:+ t) = (String.length s + String.length t)%nat.
Proof.
  induction s as [|c s IH]; simpl; [reflexivity | rewrite IH; reflexivity].
Qed.

Lemma string_app_inv_tail (s1 s2 t : string) :
  s1 +:+ t = s2 +:+ t -> s1 = s2.
Proof.
  revert s2. induction s1 as [|c s1 IH]; intros [|d s2] H.
  - reflexivity.
  - apply (f_equal String.length) in H.
    rewrite !string_length_app in H. simpl in H. lia.
  - apply (f_equal String.length) in H.
    rewrite !string_length_app in H. simpl in H. lia.
  - change (String c (s1 +:+ t) = String d (s2 +:+ t)) in H.
    injection H as -> H. f_equal. apply IH, H.
Qed.

(** X20.  For one route and one configuration, two transaction hashes
    that get the same explorer link, or the same API link, are the same
    hash; and the explorer is Mayan's exactly for the routes whose name
    starts with "MayanSwap". *)
Theorem getExplorerInfo_injective (cfg : ExplorerSettings)
    (routeName txHash txHash' : string) :
  (ex_url (getExplorerInfo cfg routeName txHash)
   = ex_url (getExplorerInfo cfg routeName txHash') -> txHash = txHash')
  /\ (ex_apiUrl (getExplorerInfo cfg routeName txHash)
      = ex_apiUrl (getExplorerInfo cfg routeName txHash') ->
      txHash = txHash')
  /\ (ex_name (getExplorerInfo cfg routeName txHash) = "Mayan Explorer"
      <-> String.prefix "MayanSwap" routeName = true).
Proof.
  unfold getExplorerInfo.
  destruct (String.prefix "MayanSwap" routeName); simpl.
  - split; [|split].
    + intros H. injection H as H. exact H.
    + intros H. apply String.app_inj in H. apply String.app_inj in H.
      exact H.
    + split; reflexivity.
  - split; [|split].
    + intros H. apply String.app_inj in H.
      change ("tx/" +:+ ?a) with (String "t" (String "x" (String "/" a)))
        in H.
      injection H as H. apply string_app_inv_tail in H. exact H.
    + intros H. apply String.app_inj in H. apply String.app_inj in H.
      exact H.
    + split; discriminate.
Qed.

(** X21.  [isMinAmountError] throws only a [TypeError], and only for an
    error whose [min] is [null]; it answers [true] exactly for an error
    object whose [min] is an object with a string [amount] and a number
    [decimals]; for a missing error it answers [false]. *)
Theorem isMinAmountError_outcome (error : JsValue) :
  (forall e, isMinAmountError error = Throw e <->
             e = TypeError
             /\ exists members,
                  error = js_object members
                  /\ own_member "min" members = js_null)
  /\ (isMinAmountError error = Return true <->
      exists members min a d,
        error = js_object members
        /\ own_member "min" members = js_object min
        /\ own_member "amount" min = js_string a
        /\ own_member "decimals" min = js_number d)
  /\ isMinAmountError js_undefined = Return false.
Proof.
  split; [|split; [|reflexivity]].
  - intros e. split.
    + destruct error as [| | | | |members]; simpl; try discriminate.
      unfold isAmount.
      destruct (own_member "min" members) as [| | | | |min] eqn:Hmin;
        simpl; try discriminate.
      * intros H. injection H as <-. split; [reflexivity|].
        exists members. split; [reflexivity | exact Hmin].
      * destruct (own_member "amount" min); simpl; discriminate.
    + intros (-> & members & -> & Hmin). simpl. rewrite Hmin. reflexivity.
  - split.
    + destruct error as [| | | | |members]; simpl; try discriminate.
      unfold isAmount.
      destruct (own_member "min" members) as [| | | | |min] eqn:Hmin;
        simpl; try discriminate.
      destruct (own_member "amount" min) as [| | | |a|] eqn:Ha;
        simpl; try discriminate.
      destruct (own_member "decimals" min) as [| | |d| |] eqn:Hd;
        simpl; try discriminate.
      intros _. exists members, min, a, d. repeat split; assumption.
    + intros (members & min & a & d & -> & Hmin & Ha & Hd).
      simpl. rewrite Hmin. unfold isAmount. simpl. rewrite Ha. simpl.
      rewrite Hd. reflexivity.
Qed.

Section TopTokensFacts.
Variable tokens : string -> option TokenConfig.
Variable wrappedAsset : TokenConfig -> option string.

Lemma find_key_In (key : string) (l : list TokenConfig) (t : TokenConfig) :
  find_key key l = Some t -> In t l.
Proof.
  unfold find_key. intros H. apply find_some in H as [H _]. exact H.
Qed.

Lemma shortlist_step_refl (items l : list TokenConfig) :
  shortlist_step items l l.
Proof.
  split; [|auto]. exists []. rewrite app_nil_r. split; [reflexivity|].
  constructor.
Qed.

Lemma shortlist_step_trans (items a b c : list TokenConfig) :
  shortlist_step items a b -> shortlist_step items b c ->
  shortlist_step items a c.
Proof.
  intros [(m1 & -> & F1) L1] [(m2 & -> & F2) L2]. split; [|auto].
  exists (m1 ++ m2). rewrite app_assoc. split; [reflexivity|].
  apply Forall_app. split; assumption.
Qed.

Lemma shortlist_step_push (items l : list TokenConfig) (t : TokenConfig) :
  In t items -> (length l <? SHORT_LIST_SIZE)%nat = true ->
  shortlist_step items l (l ++ [t]).
Proof.
  intros Hin Hlt. apply Nat.ltb_lt in Hlt. split.
  - exists [t]. split; [reflexivity|]. constructor; [exact Hin | constructor].
  - intros _. rewrite length_app. simpl. lia.
Qed.

Lemma push_balance_step (items added : list TokenConfig)
    (entry : string * bool) :
  shortlist_step items added (push_balance items added entry).
Proof.
  unfold push_balance.
  destruct (snd entry); [|apply shortlist_step_refl].
  destruct (find_key (fst entry) items) as [t|] eqn:Ht;
    [|apply shortlist_step_refl].
  destruct (find_key (fst entry) added); [apply shortlist_step_refl|].
  destruct (length added <? SHORT_LIST_SIZE)%nat eqn:Hlt;
    [|apply shortlist_step_refl].
  apply shortlist_step_push; [eapply find_key_In, Ht | exact Hlt].
Qed.

Lemma push_fill_step (items added : list TokenConfig) (t : TokenConfig) :
  In t items -> shortlist_step items added (push_fill added t).
Proof.
  intros Hin. unfold push_fill.
  destruct (find_key (tk_key t) added); [apply shortlist_step_refl|].
  destruct (length added <? SHORT_LIST_SIZE)%nat eqn:Hlt;
    [|apply shortlist_step_refl].
  apply shortlist_step_push; assumption.
Qed.

Lemma fold_balance_step (items : list TokenConfig)
    (balances : list (string * bool)) (added : list TokenConfig) :
  shortlist_step items added (fold_left (push_balance items) balances added).
Proof.
  revert added. induction balances as [|entry rest IH]; intros added; simpl.
  - apply shortlist_step_refl.
  - eapply shortlist_step_trans; [apply push_balance_step | apply IH].
Qed.

Lemma fold_fill_step (items l added : list TokenConfig) :
  (forall t, In t l -> In t items) ->
  shortlist_step items added (fold_left push_fill l added).
Proof.
  revert added. induction l as [|t rest IH]; intros added Hsub; simpl.
  - apply shortlist_step_refl.
  - eapply shortlist_step_trans.
    + apply push_fill_step, Hsub. left. reflexivity.
    + apply IH. intros t' Ht'. apply Hsub. right. exact Ht'.
Qed.

(** X22.  The token picker's shortlist never has more than five entries;
    each entry is the selected token or a token of the token list; and
    when there is a selected token it comes first. *)
Theorem topTokens_shortlist (tokenList : option (list TokenConfig))
    (selectedToken sourceToken : option string) (gasToken : string)
    (balances : list (string * bool)) :
  let shortlist :=
    topTokens tokens wrappedAsset tokenList selectedToken sourceToken
      gasToken balances in
  let selected := nonempty selectedToken ≫= tokens in
  (length shortlist <= SHORT_LIST_SIZE)%nat
  /\ Forall (fun t => selected = Some t \/ In t (default [] tokenList))
       shortlist
  /\ (forall t, selected = Some t -> head shortlist = Some t).
Proof.
  cbn zeta. unfold topTokens.
  set (items := default [] tokenList).
  set (selected := nonempty selectedToken ≫= tokens).
  set (first := match selected with Some t => [t] | None => [] end).
  assert (Hfirst : (length first <= 1)%nat
                   /\ Forall (fun t => selected = Some t \/ In t items) first
                   /\ forall t, selected = Some t -> head first = Some t).
  { subst first. destruct selected as [t|]; simpl.
    - repeat split; [lia | repeat constructor | congruence].
    - repeat split; [lia | constructor | discriminate]. }
  match goal with
  | |- context [fold_left (push_balance items) balances ?x] =>
    set (third := x)
  end.
  assert (Hthird : exists more,
             third = first ++ more /\ (length more <= 2)%nat
             /\ Forall (fun t => In t items) more).
  { subst third.
    match goal with
    | |- context [match find_key gasToken items with
                  | Some n => _ | None => ?x end] => set (second := x)
    end.
    assert (Hsecond : exists more,
               second = first ++ more /\ (length more <= 1)%nat
               /\ Forall (fun t => In t items) more).
    { subst second.
      destruct (nonempty sourceToken ≫= tokens) as [src|];
        [|exists []; rewrite app_nil_r; repeat split;
          [simpl; lia | constructor]].
      destruct (nonempty (wrappedAsset src)) as [k|];
        [|exists []; rewrite app_nil_r; repeat split;
          [simpl; lia | constructor]].
      destruct (find_key k items) as [d|] eqn:Hd;
        [|exists []; rewrite app_nil_r; repeat split;
          [simpl; lia | constructor]].
      exists [d]. repeat split; [simpl; lia|].
      constructor; [eapply find_key_In, Hd | constructor]. }
    destruct Hsecond as (m & -> & Hlen & Hall).
    assert (Hpush : forall n, find_key gasToken items = Some n ->
               exists more,
                 (first ++ m) ++ [n] = first ++ more
                 /\ (length more <= 2)%nat
                 /\ Forall (fun t => In t items) more).
    { intros n Hn. exists (m ++ [n]). rewrite app_assoc.
      repeat split; [rewrite length_app; simpl; lia|].
      apply Forall_app. split; [exact Hall|].
      constructor; [eapply find_key_In, Hn | constructor]. }
    assert (Hstay : exists more,
               first ++ m = first ++ more /\ (length more <= 2)%nat
               /\ Forall (fun t => In t items) more).
    { exists m. repeat split; [lia | exact Hall]. }
    destruct (find_key gasToken items) as [n|] eqn:Hn; [|exact Hstay].
    destruct selected as [sel|]; [|apply Hpush; reflexivity].
    destruct (String.eqb (tk_key n) (tk_key sel));
      [exact Hstay | apply Hpush; reflexivity]. }
  destruct Hthird as (m3 & Ethird & Hlen3 & Hall3).
  destruct Hfirst as (Hlen1 & Hall1 & Hhead1).
  assert (Hstep : shortlist_step items third
                    (fold_left push_fill items
                       (fold_left (push_balance items) balances third))).
  { eapply shortlist_step_trans;
      [apply fold_balance_step | apply fold_fill_step; auto]. }
  destruct Hstep as [(more & -> & Hmore) Hlen].
  rewrite Ethird in *. split; [|split].
  - apply Hlen. rewrite length_app. unfold SHORT_LIST_SIZE. lia.
  - repeat (apply Forall_app; split).
    + exact Hall1.
    + eapply Forall_impl; [exact Hall3 | auto].
    + eapply Forall_impl; [exact Hmore | auto].
  - intros t Ht. specialize (Hhead1 t Ht).
    destruct first as [|x rest]; [discriminate Hhead1|].
    simpl in *. exact Hhead1.
Qed.

End TopTokensFacts.

(** ** The further theorems at work on the samples *)

Lemma getWalletOptions_offer_sample :
  let options := mapWallets [Sample.MetaMask] ETH [] in
  NoDup (map wd_name options)
  /\ Forall (fun wd => Some (wd_type wd) = Some ETH) options
  /\ (forall c, Some Sample.Ethereum = Some c -> cc_context c = COSMOS ->
        cc_key c = "Evmos" \/ cc_key c = "Injective" ->
        "OKX Wallet" ∉ map wd_name options)
  /\ only_logs Sample2.start (log_call (c_fetch_wallets evm_wallets)
                                Sample2.start)
  /\ (length (calls (log_call (c_fetch_wallets evm_wallets) Sample2.start))
      <= S (length (calls Sample2.start)))%nat.
Proof.
  exact (getWalletOptions_offer Sample.calm (Some Sample.Ethereum)
           Sample2.start
           (log_call (c_fetch_wallets evm_wallets) Sample2.start)
           (mapWallets [Sample.MetaMask] ETH []) eq_refl).
Defined.

Lemma connect_then_restore_sample :
  let s1 := snd (connectWallet Sample.config Sample.calm SENDING "Ethereum"
                   Sample2.WalletConnect Sample2.start) in
  localStorage s1 !! storage_key Sample.config ETH = Some "WalletConnect"
  /\ ("WalletConnect" = "WalletConnect" ->
      connectLastUsedWallet Sample.config Sample.calm RECEIVING "Bsc" s1
      = (Return tt, s1)).
Proof.
  exact (connect_then_restore Sample.config Sample.calm SENDING RECEIVING
           "Ethereum" "Bsc" Sample.Ethereum Sample.Bsc Sample2.WalletConnect
           Sample2.start
           (snd (connectWallet Sample.config Sample.calm SENDING "Ethereum"
                   Sample2.WalletConnect Sample2.start))
           eq_refl eq_refl eq_refl eq_refl).
Defined.

Lemma switchChain_switches_sample :
  let s := Sample.world (Some Sample.MetaMask) None ∅ in
  switchChain Sample.config Sample.calm (NumId 56) SENDING s
  = (Return (Some "0xabcMetaMask"),
     log_call (c_evm_switchChain Sample.MetaMask (NumId 56)) s).
Proof.
  exact (switchChain_switches Sample.config Sample.calm (NumId 56) SENDING
           (Sample.world (Some Sample.MetaMask) None ∅) Sample.MetaMask
           Sample.Bsc eq_refl ltac:(discriminate) eq_refl eq_refl).
Defined.

Lemma switchChain_missing_sample :
  let s := Sample.world (Some Sample.MetaMask) None ∅ in
  switchChain Sample.config Sample.calm (NumId 999) SENDING s
  = (Throw TypeError, s).
Proof.
  exact (switchChain_missing Sample.config Sample.calm (NumId 999) SENDING
           (Sample.world (Some Sample.MetaMask) None ∅) eq_refl).
Defined.

Lemma resolveSync_agrees_sample :
  let s1 := snd (getTokenBridgeWrappedTokenAddress Sample.config Sample.calm
                   Sample.USDC "Sui" Sample2.start) in
  getTokenBridgeWrappedTokenAddressSync Sample.USDC "Sui" s1
  = (Return (Some (NativeAddress "0xwrapped")), s1).
Proof.
  exact (proj1 (proj2 (resolveSync_agrees Sample.config Sample.calm
                         Sample.USDC "Sui" Sample2.start
                         (NativeAddress "0xwrapped")))
           eq_refl).
Defined.

Lemma resolve_keeps_cache_sample :
  wrappedTokenAddressCache
    (snd (getTokenBridgeWrappedTokenAddress Sample.config Sample.calm
            Sample.USDC "Sui" Sample2.cached))
    !! ("WETH", "Sui")
  = Some (NativeAddress "0x0ld").
Proof.
  exact (proj1 (resolve_keeps_cache Sample.config Sample.calm Sample.USDC
                  "Sui" Sample2.cached "WETH" "Sui" (NativeAddress "0x0ld"))
           eq_refl).
Defined.

Lemma resolve_client_error_sample :
  let r := getTokenBridgeWrappedTokenAddress Sample.config Sample2.offline
             Sample.USDC "Sui" Sample2.start in
  fst r = Throw (Error "no network")
  /\ live_lookups (snd r) = live_lookups Sample2.start
  /\ wrappedTokenAddressCache (snd r)
     = wrappedTokenAddressCache Sample2.start.
Proof.
  exact (resolve_client_error Sample.config Sample2.offline Sample.USDC
           "Sui" Sample2.start (Error "no network") eq_refl
           (or_introl eq_refl)).
Defined.

Lemma parseReceipt_unknown_route_sample :
  parseReceipt Sample.config Sample.calm "MayanSwap"
    Sample.receipt_without_origin Sample2.start
  = (Throw (Error "Unknown route type MayanSwap"), Sample2.start).
Proof.
  apply (parseReceipt_unknown_route Sample.config Sample.calm "MayanSwap"
           Sample.receipt_without_origin Sample2.start).
  unfold known_routes. intros H.
  repeat (apply elem_of_cons in H as [H | H]; [discriminate H|]).
  inversion H.
Defined.

Lemma parseReceipt_frame_sample :
  snd (parseReceipt Sample2.config Sample.calm "ManualCCTP"
         Sample2.cctp_receipt Sample2.start)
  = Sample2.start.
Proof.
  apply (proj2 (proj2 (parseReceipt_frame Sample2.config Sample.calm
                         "ManualCCTP" Sample2.cctp_receipt Sample2.start))).
  right. right. split; [reflexivity | discriminate].
Defined.

Lemma parseNttReceipt_amount_sample :
  exists payloadName m,
    r_attestation Sample2.ntt_receipt
    = NttAttestation payloadName
        (if String.eqb payloadName "WormholeTransfer"
         then top_level m else nested m)
    /\ amount Sample2.ntt_info
       = amount_display Sample2.config
           (Z_toString (ta_amount (trimmedAmount m)))
           (ta_decimals (trimmedAmount m))
    /\ tokenDecimals Sample2.ntt_info = ta_decimals (trimmedAmount m)
    /\ receiveAmount Sample2.ntt_info = Some (amount Sample2.ntt_info)
    /\ relayerFee Sample2.ntt_info = None
    /\ recipient Sample2.ntt_info
       = Some (toNative Sample2.config (r_to Sample2.ntt_receipt)
                 (recipientAddress m)).
Proof.
  apply (parseNttReceipt_amount Sample2.config Sample2.ntt_receipt
           Sample2.start Sample2.start Sample2.ntt_info).
  vm_compute. reflexivity.
Defined.

Lemma parseNttReceipt_shapes_sample :
  parseNttReceipt Sample2.config
    (with_attestation Sample2.ntt_receipt
       (NttAttestation "WormholeTransferStandardRelayer"
          (nested Sample2.manager_payload))) Sample2.start
  = parseNttReceipt Sample2.config
      (with_attestation Sample2.ntt_receipt
         (NttAttestation "WormholeTransfer"
            (top_level Sample2.manager_payload))) Sample2.start.
Proof.
  apply (parseNttReceipt_shapes Sample2.config Sample2.ntt_receipt
           "WormholeTransferStandardRelayer" Sample2.manager_payload
           Sample2.start).
  discriminate.
Defined.

Lemma parseCCTPReceipt_amount_sample :
  amount Sample2.fine_info = "1.234567890123456789"
  /\ exists payload usdc dest,
       r_attestation Sample2.fine_receipt = CircleAttestation (Some payload)
       /\ findTokenConfigV1 Sample2.config
            {| tid_chain := r_from Sample2.fine_receipt;
               tid_address := toNative Sample2.config
                                (r_from Sample2.fine_receipt)
                                (burnToken payload) |}
            (tokensArr Sample2.config)
          = Some usdc
       /\ tokenKey Sample2.fine_info = tk_key usdc
       /\ tokenDecimals Sample2.fine_info
          = getTokenDecimals Sample2.config (r_from Sample2.fine_receipt)
              (getWrappedTokenId Sample2.config usdc)
       /\ amount Sample2.fine_info
          = amount_display Sample2.config
              (Z_toString (circle_amount payload))
              (getTokenDecimals Sample2.config (r_from Sample2.fine_receipt)
                 (getWrappedTokenId Sample2.config usdc))
       /\ amount Sample2.fine_info
          = amount_display Sample2.config
              (Z_toString (circle_amount payload))
              (tokenDecimals Sample2.fine_info)
       /\ receiveAmount Sample2.fine_info = Some (amount Sample2.fine_info)
       /\ relayerFee Sample2.fine_info = None
       /\ In dest (tokensArr Sample2.config)
       /\ tk_symbol dest = "USDC"
       /\ tk_nativeChain dest = toChain Sample2.fine_info
       /\ receivedTokenKey Sample2.fine_info = tk_key dest.
Proof.
  split; [reflexivity|].
  apply (parseCCTPReceipt_amount Sample2.config Sample.calm
           Sample2.fine_receipt Sample2.start Sample2.start
           Sample2.fine_info).
  vm_compute. reflexivity.
Defined.

Lemma parseTokenBridgeReceipt_extension_sample :
  receivedTokenKey Sample2.relayed_info = tokenKey Sample2.relayed_info
  /\ receiveAmount Sample2.relayed_info = Some (amount Sample2.relayed_info)
  /\ sender Sample2.relayed_info = None
  /\ (relayerFee Sample2.relayed_info = None
      <-> truthy (p_payload Sample2.relayed_payload ≫= targetRelayerFee)
          = None)
  /\ (receiveNativeAmount Sample2.relayed_info = None
      <-> truthy (p_payload Sample2.relayed_payload ≫= toNativeTokenAmount)
          = None)
  /\ (forall f, relayerFee Sample2.relayed_info = Some f ->
        fee_tokenKey f = tokenKey Sample2.relayed_info).
Proof.
  apply (parseTokenBridgeReceipt_extension Sample2.config Sample.calm
           Sample2.relayed_receipt Sample2.start
           (snd (parseReceipt Sample2.config Sample.calm "ManualTokenBridge"
                   Sample2.relayed_receipt Sample2.start))
           Sample2.relayed_info Sample2.relayed_payload).
  - vm_compute. reflexivity.
  - reflexivity.
Defined.
